(** * Payout lifecycle of the vendor service

    A shallow embedding of the payout code of the vendor service
    (apps/payouts/models.py, serializers.py, views.py, the two processors
    and the payout tasks of apps/vendors/tasks.py) together with the
    properties of that code.

    Conventions.
    - A [DecimalField(max_digits=12, decimal_places=2)] read from the
      database or from a request is a [Decimal] with two places, held as an
      integer number of cents, a [Z].  The literals [0.00] and [0.01] of the
      source are floats, not [Decimal]s: see [Number].
    - Saving a balance quantizes its amounts to the 12 digits of their
      columns and fails when one needs more: [VendorBalance_save].  The
      amount and the fees of a payout row come from the database and fit;
      the statements about a run of the task that is to succeed ask the
      same of the net amount derived from them, [net_amount_fits].
    - A [DateTimeField] holds seconds since the epoch, a [DateField] a day
      number; [None] is [None].
    - A table is a finite map from primary key to row.  The vendor balance
      and the tables are written only by [save]; Django runs in autocommit
      mode, so a row saved before an exception is raised stays saved.
    - Everything the code obtains from outside (settings, the clock, the
      random UUIDs, the answers of Stripe and of the PayPal HTTP API) is a
      field of [Env]. *)

From Stdlib Require Import ZArith Lia Ascii String.
From stdpp Require Import gmap strings pretty list fin_maps.

Local Open Scope Z_scope.

(** ** Enumerations of models.py *)

Module AccountType.
Inductive t := BANK_ACCOUNT | PAYPAL | STRIPE | CASH.
#[global] Instance eq_dec : EqDecision t.
Proof. solve_decision. Defined.
End AccountType.

Module VerificationStatus.
Inductive t := PENDING | VERIFIED | FAILED.
#[global] Instance eq_dec : EqDecision t.
Proof. solve_decision. Defined.
End VerificationStatus.

Module PayoutStatus.
Inductive t := PENDING | PROCESSING | COMPLETED | FAILED | CANCELLED.
#[global] Instance eq_dec : EqDecision t.
Proof. solve_decision. Defined.
End PayoutStatus.

Module PayoutMethod.
Inductive t := BANK_TRANSFER | PAYPAL | STRIPE | MANUAL.
#[global] Instance eq_dec : EqDecision t.
Proof. solve_decision. Defined.
End PayoutMethod.

Module ScheduleType.
Inductive t := MANUAL | WEEKLY | BI_WEEKLY | MONTHLY.
#[global] Instance eq_dec : EqDecision t.
Proof. solve_decision. Defined.
End ScheduleType.

(** ** Rows of models.py *)

Record PayoutAccount := mkPayoutAccount {
  pa_vendor : nat;
  account_type : AccountType.t;
  is_primary : bool;
  verification_status : VerificationStatus.t;
  email : option string;
  stripe_account_id : option string;
  pa_created_at : Z
}.

Record Payout := mkPayout {
  id : option nat;
  vendor : nat;
  payout_account : option nat;
  amount : Z;
  currency : string;
  payout_method : PayoutMethod.t;
  status : PayoutStatus.t;
  commission_fee : Z;
  processing_fee : Z;
  net_amount : option Z;
  requested_at : option Z;
  processed_at : option Z;
  completed_at : option Z;
  reference_number : string;
  processor_reference : option string;
  failure_reason : option string;
  retry_count : nat;
  updated_at : option Z
}.

Record PayoutSchedule := mkPayoutSchedule {
  ps_vendor : nat;
  schedule_type : ScheduleType.t;
  is_active : bool;
  next_payout_date : option Z;
  minimum_payout_amount : Z;
  auto_process : bool;
  last_processed_at : option Z
}.

Record VendorBalance := mkVendorBalance {
  available_balance : Z;
  pending_balance : Z;
  total_earnings : Z;
  total_payouts : Z;
  on_hold_balance : Z;
  hold_reason : option string;
  vb_currency : string
}.

(** ** Exceptions and the two-track result of a call *)

Inductive Exn :=
| ValidationError (field message : string)
| AttributeError (message : string)
| CustomException (message : string) (status_code : Z)
| PayoutError (message : string)
| PayPalError (message : string)
| IntegrityError (message : string)
| DoesNotExist (model : string)
| RelatedObjectDoesNotExist (message : string)
| TypeError (message : string)
| KeyError (message : string)
| InvalidOperation (message : string).

Inductive Result (A : Type) :=
| Ok (a : A)
| Raise (e : Exn).
Arguments Ok {A} a.
Arguments Raise {A} e.

(** ** Numbers

    An amount read from the database or from a request is a [Decimal]; a
    literal such as [0.00] or [0.01] is a float, the binary fraction
    [mantissa * 2 ^ exponent] nearest to it. *)
Inductive Number :=
| Decimal (cents : Z)
| Float (mantissa exponent : Z).

(** The two floats the source writes where a [Decimal] meets them. *)
Definition float_0_00 : Number := Float 0 0.
Definition float_0_01 : Number := Float 5764607523034235 (-59).

(** [x < y] for a [Decimal] [x]: Python compares a [Decimal] and a float
    by their exact values. *)
Definition Decimal_lt (x : Z) (y : Number) : bool :=
  match y with
  | Decimal cents => x <? cents
  | Float mantissa exponent =>
      if 0 <=? exponent then x <? 100 * mantissa * 2 ^ exponent
      else x * 2 ^ (- exponent) <? 100 * mantissa
  end.

(** A call of a Celery task as [delay] sends it to the broker. *)
Inductive Task :=
| process_payout_task (payout_id : nat)
| send_payout_processed_email (payout_id : nat)
| send_payout_failed_email (payout_id : nat) (reason : string).

(** ** The database and the broker

    The three tables are keyed by primary key.  [vendor_balances] is keyed
    by the vendor, whose balance the one-to-one field [vendor.balance]
    reads.  [uuid_calls] counts the calls of [uuid.uuid4] so far, and
    [queue] lists the task calls sent to the broker, oldest first. *)

Record World := mkWorld {
  payout_accounts : gmap nat PayoutAccount;
  payouts : gmap nat Payout;
  payout_schedules : gmap nat PayoutSchedule;
  vendor_balances : gmap nat VendorBalance;
  uuid_calls : nat;
  queue : list Task
}.

(** ** What comes from outside *)

Inductive FailureKind := Transient | Permanent.

(** The answer of [stripe.Transfer.create]: a transfer, or one of the
    subclasses of [stripe.error.StripeError] (connection and rate-limit
    errors are transient, invalid requests permanent). *)
Inductive StripeOutcome :=
| Transfer (transfer_id : string)
| StripeError (kind : FailureKind) (message : string).

(** The body of a PayPal HTTP response as far as the code reads it: not
    JSON, with the message of the error [response.json()] raises, or JSON
    with or without the [payout_batch_id] and [batch_status] of a
    [batch_header]. *)
Inductive Body :=
| NotJSON (message : string)
| JSON (batch_header : option (string * string)).

(** A response: the status code, what [_extract_error_message] does with
    it, and the body.  [_extract_error_message] returns a text, or it
    raises: a JSON body that is [null] or a number, or whose [details] are
    malformed, makes it raise a [TypeError] or a [KeyError]. *)
Record Response := mkResponse {
  status_code : Z;
  error_message : Result string;
  body : Body
}.

(** One call of [requests.request]. *)
Inductive HttpOutcome :=
| Responded (r : Response)
| Timeout (message : string)
| ConnectionError (message : string)
| OtherException (message : string).

Record Env := mkEnv {
  MIN_PAYOUT_AMOUNT : Z;
  PAYPAL_MAX_RETRIES : nat;
  now : Z;
  uuid4 : nat -> Z;
  stripe_Transfer_create : StripeOutcome;
  paypal_access_token : Result string;
  requests_request : nat -> HttpOutcome
}.

(** [timezone.now().date()] *)
Definition today (env : Env) : Z := now env / 86400.

(** ** Calls that read and write the world and may raise *)

Definition M (A : Type) : Type := World -> Result A * World.

Definition ret {A} (a : A) : M A := fun w => (Ok a, w).
Definition raise {A} (e : Exn) : M A := fun w => (Raise e, w).
Definition bind {A B} (m : M A) (k : A -> M B) : M B :=
  fun w => match m w with
           | (Ok a, w') => k a w'
           | (Raise e, w') => (Raise e, w')
           end.

Notation "'do' x <- m ; k" := (bind m (fun x => k))
  (at level 10, x name, m at level 100, k at level 200).
Notation "'run' m ; k" := (bind m (fun _ => k))
  (at level 10, m at level 100, k at level 200).

Ltac unfold_monad := unfold bind, ret, raise in *.

(** ** Field updates of a payout *)

Definition set_id (v : option nat) (p : Payout) : Payout :=
  mkPayout v (vendor p) (payout_account p) (amount p) (currency p)
    (payout_method p) (status p) (commission_fee p) (processing_fee p)
    (net_amount p) (requested_at p) (processed_at p) (completed_at p)
    (reference_number p) (processor_reference p) (failure_reason p)
    (retry_count p) (updated_at p).

Definition set_status (v : PayoutStatus.t) (p : Payout) : Payout :=
  mkPayout (id p) (vendor p) (payout_account p) (amount p) (currency p)
    (payout_method p) v (commission_fee p) (processing_fee p)
    (net_amount p) (requested_at p) (processed_at p) (completed_at p)
    (reference_number p) (processor_reference p) (failure_reason p)
    (retry_count p) (updated_at p).

Definition set_net_amount (v : option Z) (p : Payout) : Payout :=
  mkPayout (id p) (vendor p) (payout_account p) (amount p) (currency p)
    (payout_method p) (status p) (commission_fee p) (processing_fee p)
    v (requested_at p) (processed_at p) (completed_at p)
    (reference_number p) (processor_reference p) (failure_reason p)
    (retry_count p) (updated_at p).

Definition set_requested_at (v : option Z) (p : Payout) : Payout :=
  mkPayout (id p) (vendor p) (payout_account p) (amount p) (currency p)
    (payout_method p) (status p) (commission_fee p) (processing_fee p)
    (net_amount p) v (processed_at p) (completed_at p)
    (reference_number p) (processor_reference p) (failure_reason p)
    (retry_count p) (updated_at p).

Definition set_processed_at (v : option Z) (p : Payout) : Payout :=
  mkPayout (id p) (vendor p) (payout_account p) (amount p) (currency p)
    (payout_method p) (status p) (commission_fee p) (processing_fee p)
    (net_amount p) (requested_at p) v (completed_at p)
    (reference_number p) (processor_reference p) (failure_reason p)
    (retry_count p) (updated_at p).

Definition set_completed_at (v : option Z) (p : Payout) : Payout :=
  mkPayout (id p) (vendor p) (payout_account p) (amount p) (currency p)
    (payout_method p) (status p) (commission_fee p) (processing_fee p)
    (net_amount p) (requested_at p) (processed_at p) v
    (reference_number p) (processor_reference p) (failure_reason p)
    (retry_count p) (updated_at p).

Definition set_reference_number (v : string) (p : Payout) : Payout :=
  mkPayout (id p) (vendor p) (payout_account p) (amount p) (currency p)
    (payout_method p) (status p) (commission_fee p) (processing_fee p)
    (net_amount p) (requested_at p) (processed_at p) (completed_at p)
    v (processor_reference p) (failure_reason p)
    (retry_count p) (updated_at p).

Definition set_processor_reference (v : option string) (p : Payout) : Payout :=
  mkPayout (id p) (vendor p) (payout_account p) (amount p) (currency p)
    (payout_method p) (status p) (commission_fee p) (processing_fee p)
    (net_amount p) (requested_at p) (processed_at p) (completed_at p)
    (reference_number p) v (failure_reason p)
    (retry_count p) (updated_at p).

Definition set_failure_reason (v : option string) (p : Payout) : Payout :=
  mkPayout (id p) (vendor p) (payout_account p) (amount p) (currency p)
    (payout_method p) (status p) (commission_fee p) (processing_fee p)
    (net_amount p) (requested_at p) (processed_at p) (completed_at p)
    (reference_number p) (processor_reference p) v
    (retry_count p) (updated_at p).

Definition set_retry_count (v : nat) (p : Payout) : Payout :=
  mkPayout (id p) (vendor p) (payout_account p) (amount p) (currency p)
    (payout_method p) (status p) (commission_fee p) (processing_fee p)
    (net_amount p) (requested_at p) (processed_at p) (completed_at p)
    (reference_number p) (processor_reference p) (failure_reason p)
    v (updated_at p).

Definition set_updated_at (v : option Z) (p : Payout) : Payout :=
  mkPayout (id p) (vendor p) (payout_account p) (amount p) (currency p)
    (payout_method p) (status p) (commission_fee p) (processing_fee p)
    (net_amount p) (requested_at p) (processed_at p) (completed_at p)
    (reference_number p) (processor_reference p) (failure_reason p)
    (retry_count p) v.

(** Writes to one table of the world. *)
Definition set_payouts (t : gmap nat Payout) (w : World) : World :=
  mkWorld (payout_accounts w) t (payout_schedules w) (vendor_balances w)
    (uuid_calls w) (queue w).

Definition set_payout_schedules (t : gmap nat PayoutSchedule) (w : World) : World :=
  mkWorld (payout_accounts w) (payouts w) t (vendor_balances w)
    (uuid_calls w) (queue w).

Definition set_vendor_balances (t : gmap nat VendorBalance) (w : World) : World :=
  mkWorld (payout_accounts w) (payouts w) (payout_schedules w) t
    (uuid_calls w) (queue w).

Definition set_uuid_calls (n : nat) (w : World) : World :=
  mkWorld (payout_accounts w) (payouts w) (payout_schedules w)
    (vendor_balances w) n (queue w).

(** [task.delay(...)]: the call is put on the broker, it runs later. *)
Definition delay (t : Task) : M unit := fun w =>
  (Ok tt, mkWorld (payout_accounts w) (payouts w) (payout_schedules w)
            (vendor_balances w) (uuid_calls w) (queue w ++ [t])).

(** ** Reference numbers: [f"PO-{uuid.uuid4().hex[:8].upper()}"] *)

(** A version-4 UUID is a 128-bit number whose version nibble (bits 76-79)
    is 4 and whose variant bits (62-63) are 10. *)
Definition is_uuid4 (u : Z) : bool :=
  (0 <=? u) && (u <? 2 ^ 128)
  && (Z.land (Z.shiftr u 76) 15 =? 4)
  && (Z.land (Z.shiftr u 62) 3 =? 2).

Definition hex_digit (n : Z) : ascii :=
  match n with
  | 0 => "0" | 1 => "1" | 2 => "2" | 3 => "3" | 4 => "4" | 5 => "5"
  | 6 => "6" | 7 => "7" | 8 => "8" | 9 => "9" | 10 => "a" | 11 => "b"
  | 12 => "c" | 13 => "d" | 14 => "e" | _ => "f"
  end%char.

(** The [i]-th hexadecimal digit of the 32, most significant first. *)
Definition nibble (u : Z) (i : nat) : Z :=
  Z.land (Z.shiftr u (4 * (31 - Z.of_nat i))) 15.

(** [UUID.hex]: 32 lower-case hexadecimal digits. *)
Definition hex (u : Z) : string :=
  string_of_list_ascii (map (fun i => hex_digit (nibble u i)) (seq 0 32)).

Definition upper_char (c : ascii) : ascii :=
  let n := nat_of_ascii c in
  if ((97 <=? n) && (n <=? 122))%nat then ascii_of_nat (n - 32) else c.

(** [str.upper] *)
Definition upper (s : string) : string :=
  string_of_list_ascii (map upper_char (list_ascii_of_string s)).

Definition generate_reference (u : Z) : string :=
  "PO-" +:+ upper (String.substring 0 8 (hex u)).

Definition is_upper_hex (c : ascii) : bool :=
  let n := nat_of_ascii c in
  ((48 <=? n) && (n <=? 57) || (65 <=? n) && (n <=? 70))%nat.

(** [PO-] followed by exactly eight upper-case hexadecimal digits. *)
Definition is_reference_format (s : string) : bool :=
  match s with
  | String "P" (String "O" (String "-" t)) =>
      (String.length t =? 8)%nat
      && forallb is_upper_hex (list_ascii_of_string t)
  | _ => false
  end.

(** ** Payout.save *)

(** The unique index on [reference_number]: some other row holds it. *)
Definition reference_taken (self : Payout) (t : gmap nat Payout) : bool :=
  bool_decide (map_Exists (fun j q =>
    Some j <> id self /\ reference_number q = reference_number self) t).

(** [super().save()]: the row is written under its primary key, a new row
    under a key the table does not use.  The foreign key to the payout
    account is not nullable and [reference_number] is unique; the database
    refuses a row that breaks either.  [requested_at] is [auto_now_add],
    [updated_at] is [auto_now]. *)
Definition Model_save (env : Env) (self : Payout) : M Payout := fun w =>
  match payout_account self with
  | None => (Raise (IntegrityError "payout_account_id"), w)
  | Some _ =>
      if reference_taken self (payouts w)
      then (Raise (IntegrityError "reference_number"), w)
      else
        match id self with
        | Some i =>
            let self := set_updated_at (Some (now env)) self in
            (Ok self, set_payouts (<[i := self]> (payouts w)) w)
        | None =>
            let i := fresh (dom (payouts w)) in
            let self := set_id (Some i) (set_requested_at (Some (now env))
                          (set_updated_at (Some (now env)) self)) in
            (Ok self, set_payouts (<[i := self]> (payouts w)) w)
        end
  end.

(** [Payout.save] on an instance whose amount and fees are [Decimal]s, as
    they are on every instance read from the database. *)
Definition Payout_save (env : Env) (self : Payout) : M Payout := fun w =>
  let '(self, w) :=
    if decide (reference_number self = "")
    then (set_reference_number
            (generate_reference (uuid4 env (uuid_calls w))) self,
          set_uuid_calls (S (uuid_calls w)) w)
    else (self, w) in
  (* Calculate net amount *)
  let self := set_net_amount
    (Some (amount self - commission_fee self - processing_fee self)) self in
  Model_save env self w.

Definition set_fees (commission processing : Z) (p : Payout) : Payout :=
  mkPayout (id p) (vendor p) (payout_account p) (amount p) (currency p)
    (payout_method p) (status p) commission processing (net_amount p)
    (requested_at p) (processed_at p) (completed_at p) (reference_number p)
    (processor_reference p) (failure_reason p) (retry_count p) (updated_at p).

(** [Payout.save] on an instance with a [Decimal] amount whose fees are
    what Python holds for them.  With two [Decimal] fees it is
    [Payout_save].  With a float fee the reference number is set when it
    was empty, and then a subtraction of [amount - commission_fee -
    processing_fee] raises, since the arithmetic of [Decimal] refuses a
    float: nothing is written. *)
Definition Payout_save_with_fees (env : Env) (self : Payout)
    (commission_fee processing_fee : Number) : M Payout := fun w =>
  match commission_fee, processing_fee with
  | Decimal commission, Decimal processing =>
      Payout_save env (set_fees commission processing self) w
  | _, _ =>
      (Raise (TypeError
         "unsupported operand type(s) for -: 'decimal.Decimal' and 'float'"),
       if decide (reference_number self = "")
       then set_uuid_calls (S (uuid_calls w)) w else w)
  end.

(** [Payout.objects.create]: a new instance with the field defaults of
    the model ([status] pending, [retry_count] 0, empty
    [reference_number]), then [save].  Neither caller passes the fees, so
    both are the default of their field, [default=0.00]: a float, which the
    model instance holds as it is. *)
Definition Payout_objects_create (env : Env) (vendor : nat)
    (payout_account : option nat) (amount : Z)
    (payout_method : PayoutMethod.t) (net_amount : option Z)
    (currency : string) : M Payout :=
  Payout_save_with_fees env
    (mkPayout None vendor payout_account amount currency payout_method
       PayoutStatus.PENDING 0 0 net_amount None None None "" None None
       0%nat None)
    float_0_00 float_0_00.

(** ** VendorBalance *)

Definition can_request_payout (env : Env) (self : VendorBalance) (amount : Z) : bool :=
  (amount <=? available_balance self) && (MIN_PAYOUT_AMOUNT env <=? amount).

(** A two-place decimal held in cents, as an f-string renders it. *)
Definition str_Decimal (cents : Z) : string :=
  (if cents <? 0 then "-" else "") +:+ pretty (Z.abs cents / 100) +:+ "."
  +:+ pretty (Z.abs cents mod 100 / 10) +:+ pretty (Z.abs cents mod 10).

(** Attribute access [self.<name>] on a [VendorBalance] instance, rendered
    as in an f-string, for the amounts, the hold reason, the currency and
    the one property that models.py declares for the class.  A name the
    class does not have is an [AttributeError]; [minimum_payout_amount] is
    a field of [PayoutSchedule], not of [VendorBalance]. *)
Definition VendorBalance_getattr (self : VendorBalance) (name : string) : option string :=
  if decide (name = "available_balance") then Some (str_Decimal (available_balance self))
  else if decide (name = "pending_balance") then Some (str_Decimal (pending_balance self))
  else if decide (name = "total_earnings") then Some (str_Decimal (total_earnings self))
  else if decide (name = "total_payouts") then Some (str_Decimal (total_payouts self))
  else if decide (name = "on_hold_balance") then Some (str_Decimal (on_hold_balance self))
  else if decide (name = "hold_reason") then Some (default "None" (hold_reason self))
  else if decide (name = "currency") then Some (vb_currency self)
  else if decide (name = "total_balance")
       then Some (str_Decimal (available_balance self + pending_balance self))
  else None.

(** [vendor.balance]: the one-to-one row of the vendor. *)
Definition vendor_balance (vendor : nat) : M VendorBalance := fun w =>
  match vendor_balances w !! vendor with
  | Some b => (Ok b, w)
  | None => (Raise (RelatedObjectDoesNotExist "Vendor has no balance."), w)
  end.

(** A [DecimalField(max_digits=12, decimal_places=2)] is quantized with a
    precision of 12 digits when it is saved: a value of 10,000,000,000.00
    or more, in absolute value, does not fit. *)
Definition fits_12_digits (cents : Z) : bool := Z.abs cents <? 10 ^ 12.

(** [balance.save()]: [decimal.InvalidOperation] when one of the amounts
    does not fit its field, and then nothing is written. *)
Definition VendorBalance_fits (self : VendorBalance) : bool :=
  forallb fits_12_digits
    [available_balance self; pending_balance self; total_earnings self;
     total_payouts self; on_hold_balance self].

Definition VendorBalance_save (vendor : nat) (self : VendorBalance) : M unit := fun w =>
  if VendorBalance_fits self
  then (Ok tt, set_vendor_balances (<[vendor := self]> (vendor_balances w)) w)
  else (Raise (InvalidOperation "[<class 'decimal.InvalidOperation'>]"), w).

Definition set_balance (available total : Z) (b : VendorBalance) : VendorBalance :=
  mkVendorBalance available (pending_balance b) (total_earnings b) total
    (on_hold_balance b) (hold_reason b) (vb_currency b).

(** ** serializers.py: PayoutCreateSerializer *)

(** The body of a create request; a missing field is [None]. *)
Record Request := mkRequest {
  user_vendor : nat;
  data_amount : option Z;
  data_payout_account_id : option nat
}.

(** The fields: both are required, [amount] has at most 12 digits, and
    [MinValueValidator(0.01)] rejects a value below the float 0.01, which
    is a little more than one cent. *)
Definition run_field_validation (req : Request) : Result (Z * nat) :=
  match data_amount req, data_payout_account_id req with
  | None, _ => Raise (ValidationError "amount" "This field is required.")
  | _, None => Raise (ValidationError "payout_account_id" "This field is required.")
  | Some amount, Some payout_account_id =>
      if 10 ^ 12 <=? Z.abs amount
      then Raise (ValidationError "amount"
             "Ensure that there are no more than 12 digits in total.")
      else if Decimal_lt amount float_0_01
      then Raise (ValidationError "amount"
             "Ensure this value is greater than or equal to 0.01.")
      else Ok (amount, payout_account_id)
  end.

(** [vendor.payout_accounts.get(id=payout_account_id)] *)
Definition vendor_payout_accounts_get (vendor payout_account_id : nat)
    (w : World) : option PayoutAccount :=
  match payout_accounts w !! payout_account_id with
  | Some a => if decide (pa_vendor a = vendor) then Some a else None
  | None => None
  end.

Definition PayoutCreateSerializer_validate (env : Env) (vendor : nat)
    (amount : Z) (payout_account_id : nat) : M (nat * PayoutAccount) := fun w =>
  (* Check if payout account belongs to vendor *)
  match vendor_payout_accounts_get vendor payout_account_id w with
  | None => (Raise (ValidationError "payout_account_id" "Payout account not found."), w)
  | Some payout_account =>
      (* Check if payout account is verified *)
      if decide (verification_status payout_account <> VerificationStatus.VERIFIED)
      then (Raise (ValidationError "payout_account_id"
                     "Payout account must be verified."), w)
      else
        (* Check vendor balance *)
        match vendor_balance vendor w with
        | (Raise e, w) => (Raise e, w)
        | (Ok balance, w) =>
            if negb (can_request_payout env balance amount)
            then
              (* the message is formatted before the error is raised *)
              match VendorBalance_getattr balance "minimum_payout_amount" with
              | None => (Raise (AttributeError
                  "'VendorBalance' object has no attribute 'minimum_payout_amount'"), w)
              | Some m => (Raise (ValidationError "amount"
                  ("Insufficient balance or amount below minimum payout of $"
                   +:+ m +:+ ".")), w)
              end
            else (Ok (payout_account_id, payout_account), w)
        end
  end.

(** [serializer.is_valid(raise_exception=True)] *)
Definition is_valid (env : Env) (req : Request) : M (Z * nat * PayoutAccount) :=
  match run_field_validation req with
  | Raise e => raise e
  | Ok (amount, payout_account_id) =>
      do r <- PayoutCreateSerializer_validate env (user_vendor req) amount
                payout_account_id;
      ret (amount, fst r, snd r)
  end.

(** ** processors *)

Inductive ProcessingResult :=
| Success (reference : string)
| Failure (error : string).

(** [not s] of an optional string is true for [None] and for [''] *)
Definition falsy (s : option string) : bool :=
  match s with
  | None => true
  | Some s => bool_decide (s = "")
  end.

(** [str(e)] *)
Definition str_Exn (e : Exn) : string :=
  match e with
  | ValidationError _ m | AttributeError m | CustomException m _
  | PayoutError m | IntegrityError m => m
  | PayPalError m => "PayPal error: " +:+ m
  | DoesNotExist m => m +:+ " matching query does not exist."
  | RelatedObjectDoesNotExist m | TypeError m | KeyError m
  | InvalidOperation m => m
  end.

(** stripe_processor.py, [StripeProcessor.process_payout]: every
    [StripeError] becomes a failure result. *)
Definition StripeProcessor_process_payout (env : Env) (payout : Payout)
    (payout_account : PayoutAccount) : M (Payout * ProcessingResult) :=
  if negb (falsy (stripe_account_id payout_account))
  then match stripe_Transfer_create env with
       | Transfer transfer_id => ret (payout, Success transfer_id)
       | StripeError _ message => ret (payout, Failure message)
       end
  else ret (payout, Failure "Stripe account not configured").

(** paypal_processor.py, the loop of [_make_paypal_request]:
    [remaining] iterations are left, this one is number [attempt]. *)
Fixpoint request_attempts (env : Env) (remaining attempt : nat)
    (last_exception : option string) : Result Response :=
  match remaining with
  | O =>
      (* all retry attempts are exhausted *)
      Raise (PayPalError
        ("PayPal API request failed after " +:+ pretty (PAYPAL_MAX_RETRIES env)
         +:+ " attempts"
         +:+ match last_exception with Some m => ": " +:+ m | None => "" end))
  | S remaining' =>
      match requests_request env attempt with
      | Responded response =>
          let code := status_code response in
          if code <? 400 then Ok response
          else if (code =? 401)
                  && (Z.of_nat attempt <? Z.of_nat (PAYPAL_MAX_RETRIES env) - 1)
          then request_attempts env remaining' (S attempt) last_exception
          else
            match error_message response with
            | Raise e =>
                (* an exception that is no PayPalError: [except Exception] *)
                request_attempts env remaining' (S attempt) (Some (str_Exn e))
            | Ok error_msg =>
                (* a PayPalError raised in the loop is re-raised, not retried *)
                Raise (PayPalError (
                  if code =? 400 then "Bad request: " +:+ error_msg
                  else if code =? 401 then "Authentication failed: " +:+ error_msg
                  else if code =? 403 then "Forbidden: " +:+ error_msg
                  else if code =? 404 then "Resource not found: " +:+ error_msg
                  else if code =? 429 then "Rate limit exceeded: " +:+ error_msg
                  else if 500 <=? code then "PayPal server error: " +:+ error_msg
                  else "HTTP " +:+ pretty code +:+ ": " +:+ error_msg))
            end
      | Timeout m | ConnectionError m | OtherException m =>
          request_attempts env remaining' (S attempt) (Some m)
      end
  end.

Definition make_paypal_request (env : Env) : Result Response :=
  match paypal_access_token env with
  | Raise e => Raise e
  | Ok _ => request_attempts env (PAYPAL_MAX_RETRIES env) 0 None
  end.

(** [_create_payout_batch]: the sender batch id takes a UUID, the request
    is made, the JSON of the answer is returned. *)
Definition create_payout_batch (env : Env) (payout : Payout)
    : M (option (string * string)) := fun w =>
  let w := set_uuid_calls (S (uuid_calls w)) w in
  match make_paypal_request env with
  | Raise e => (Raise e, w)
  | Ok response =>
      match body response with
      | NotJSON message => (Raise (PayPalError
          ("Payout batch creation failed: " +:+ message)), w)
      | JSON batch_header => (Ok batch_header, w)
      end
  end.

(** [PayPalProcessor.process_payout]: it returns a success result or
    raises [PayoutError]. *)
Definition PayPalProcessor_process_payout (env : Env) (payout : Payout)
    (payout_account : PayoutAccount) : M (Payout * ProcessingResult) := fun w =>
  if falsy (email payout_account)
  then (Raise (PayoutError "PayPal account email is required"), w)
  else if amount payout <=? 0
  then (Raise (PayoutError "Payout amount must be positive"), w)
  else if Decimal_lt (amount payout) float_0_01
  then (Raise (PayoutError "Payout amount must be at least $0.01"), w)
  else if 1000000 <? amount payout
  then (Raise (PayoutError "Payout amount cannot exceed $10,000"), w)
  else
    let wrap e := PayoutError ("PayPal payout processing failed: " +:+ str_Exn e) in
    match create_payout_batch env payout w with
    | (Raise e, w) => (Raise (wrap e), w)
    | (Ok None, w) => (Raise (PayoutError
        "PayPal payout processing failed: 'batch_header'"), w)
    | (Ok (Some (payout_batch_id, _)), w) =>
        (* Store PayPal batch ID *)
        match Payout_save env
                (set_processor_reference (Some payout_batch_id) payout) w with
        | (Raise e, w) => (Raise (wrap e), w)
        | (Ok payout, w) => (Ok (payout, Success payout_batch_id), w)
        end
    end.

(** ** views.py: PayoutViewSet *)

Inductive Processor := StripeProcessor | PayPalProcessor.

Definition get_payout_method (account_type : AccountType.t) : PayoutMethod.t :=
  match account_type with
  | AccountType.BANK_ACCOUNT => PayoutMethod.BANK_TRANSFER
  | AccountType.PAYPAL => PayoutMethod.PAYPAL
  | AccountType.STRIPE => PayoutMethod.STRIPE
  | AccountType.CASH => PayoutMethod.MANUAL
  end.

Definition get_processor (account_type : AccountType.t) : M Processor :=
  match account_type with
  | AccountType.BANK_ACCOUNT | AccountType.STRIPE => ret StripeProcessor
  | AccountType.PAYPAL => ret PayPalProcessor
  | AccountType.CASH => raise (CustomException "Unsupported payout method." 400)
  end.

Definition processor_process_payout (env : Env) (processor : Processor)
    : Payout -> PayoutAccount -> M (Payout * ProcessingResult) :=
  match processor with
  | StripeProcessor => StripeProcessor_process_payout env
  | PayPalProcessor => PayPalProcessor_process_payout env
  end.

Definition update_vendor_balance (vendor : nat) (amount : Z) : M unit :=
  do balance <- vendor_balance vendor;
  VendorBalance_save vendor
    (set_balance (available_balance balance - amount)
                 (total_payouts balance + amount) balance).

Definition PayoutViewSet_create (env : Env) (request : Request) : M Payout :=
  do validated_data <- is_valid env request;
  let '(amount, payout_account_id, payout_account) := validated_data in
  (* Create payout *)
  do payout <- Payout_objects_create env (user_vendor request)
                 (Some payout_account_id) amount
                 (get_payout_method (account_type payout_account))
                 (Some amount) "USD";
  (* Process payout *)
  do processor <- get_processor (account_type payout_account);
  do r <- processor_process_payout env processor payout payout_account;
  match snd r with
  | Success reference =>
      do payout <- Payout_save env
        (set_processor_reference (Some reference)
           (set_status PayoutStatus.PROCESSING (fst r)));
      (* Update vendor balance *)
      run update_vendor_balance (vendor payout) amount;
      ret payout
  | Failure error =>
      do payout <- Payout_save env
        (set_failure_reason (Some error)
           (set_status PayoutStatus.FAILED (fst r)));
      raise (CustomException ("Payout processing failed: " +:+ error) 400)
  end.

(** shared/exceptions.py, [custom_exception_handler]: the error code and
    the HTTP status the caller is answered with. *)
Definition custom_exception_handler (exc : Exn) : string * Z :=
  match exc with
  | ValidationError _ _ => ("validation_error", 400)
  | CustomException _ status_code => ("custom_error", status_code)
  | PayoutError _ => ("custom_error", 400)
  | PayPalError _ => ("custom_error", 502)
  | DoesNotExist _ => ("not_found", 404)
  | RelatedObjectDoesNotExist _ => ("not_found", 404)
  | IntegrityError _ => ("integrity_error", 400)
  | AttributeError _ | TypeError _ | KeyError _ | InvalidOperation _ =>
      ("server_error", 500)
  end.

(** ** tasks.py: the payout tasks *)

(** [Payout.objects.get(id=payout_id)] *)
Definition Payout_objects_get (payout_id : nat) (w : World) : option Payout :=
  set_id (Some payout_id) <$> payouts w !! payout_id.

Inductive TaskOutcome :=
| Done
| Retry (countdown : Z)
| MaxRetriesExceeded
| Crashed (e : Exn).

(** [raise self.retry(countdown=...)] of a task bound with
    [max_retries=3]: the task is sent to the broker again, until the
    retries are used up. *)
Definition self_retry (retries : nat) (t : Task) (countdown : Z)
    (w : World) : TaskOutcome * World :=
  if (retries <? 3)%nat then (Retry countdown, snd (delay t w))
  else (MaxRetriesExceeded, w).

(** The handler [except Exception as e] of [process_payout]: the payout
    is read again and marked failed, the vendor is told, the task is
    retried. *)
Definition process_payout_failed (env : Env) (retries payout_id : nat)
    (e : Exn) (w : World) : TaskOutcome * World :=
  let retry := self_retry retries (process_payout_task payout_id) in
  (* Update payout status to failed *)
  match Payout_objects_get payout_id w with
  | None => retry (60 * Z.of_nat retries) w
  | Some payout =>
      let mark_failed :=
        run Payout_save env
              (set_failure_reason (Some (str_Exn e))
                (set_status PayoutStatus.FAILED payout));
        delay (send_payout_failed_email payout_id (str_Exn e)) in
      match mark_failed w with
      | (Ok _, w) => retry (60 * Z.of_nat retries) w
      | (Raise e', w) => (Crashed e', w)
      end
  end.

Definition process_payout (env : Env) (retries payout_id : nat)
    (w : World) : TaskOutcome * World :=
  match Payout_objects_get payout_id w with
  | None => self_retry retries (process_payout_task payout_id) 60 w
  | Some payout =>
      let attempt :=
        (* Mock successful processing *)
        do payout <- Payout_save env
          (set_processor_reference (Some ("PROC-" +:+ reference_number payout))
            (set_completed_at (Some (now env))
              (set_processed_at (Some (now env))
                (set_status PayoutStatus.COMPLETED payout))));
        (* Update vendor balance *)
        do balance <- vendor_balance (vendor payout);
        run VendorBalance_save (vendor payout)
              (set_balance (available_balance balance - amount payout)
                           (total_payouts balance + amount payout) balance);
        (* Send notification *)
        delay (send_payout_processed_email payout_id) in
      match attempt w with
      | (Ok _, w) => (Done, w)
      | (Raise e, w) => process_payout_failed env retries payout_id e w
      end
  end.

(** [for x in xs: body(x)], stopping at the first exception. *)
Fixpoint for_each {A} (body : A -> M unit) (xs : list A) : M unit :=
  match xs with
  | [] => ret tt
  | x :: xs => run body x; for_each body xs
  end.

Definition retry_failed_payouts (env : Env) : M unit := fun w =>
  let failed_payouts :=
    filter (fun e => status e.2 = PayoutStatus.FAILED /\ (retry_count e.2 < 3)%nat)
           (map_to_list (payouts w)) in
  for_each (fun e =>
      do payout <- Payout_save env
        (set_status PayoutStatus.PENDING
          (set_retry_count (S (retry_count e.2)) (set_id (Some e.1) e.2)));
      delay (process_payout_task e.1))
    failed_payouts w.

Definition set_schedule (next_date last : option Z) (s : PayoutSchedule) : PayoutSchedule :=
  mkPayoutSchedule (ps_vendor s) (schedule_type s) (is_active s) next_date
    (minimum_payout_amount s) (auto_process s) last.

Definition next_date (env : Env) (t : ScheduleType.t) : option Z :=
  match t with
  | ScheduleType.WEEKLY => Some (today env + 7)
  | ScheduleType.BI_WEEKLY => Some (today env + 14)
  | ScheduleType.MONTHLY => Some (today env + 30)
  | ScheduleType.MANUAL => None
  end.

Definition update_next_payout_date (env : Env) (schedule_id : nat)
    (schedule : PayoutSchedule) : M unit := fun w =>
  let schedule := set_schedule (next_date env (schedule_type schedule))
                    (Some (now env)) schedule in
  (Ok tt, set_payout_schedules (<[schedule_id := schedule]> (payout_schedules w)) w).

(** The filter of the sweep: [is_active=True, auto_process=True,
    next_payout_date__lte=today]. *)
Definition is_due (env : Env) (s : PayoutSchedule) : bool :=
  is_active s && auto_process s
  && match next_payout_date s with
     | Some d => d <=? today env
     | None => false
     end.

(** The rows of the queryset, each with the balance of its vendor as
    [select_related] loads it with the row. *)
Definition due_schedules (env : Env) (w : World)
    : list (nat * PayoutSchedule * option VendorBalance) :=
  map (fun e => (e.1, e.2, vendor_balances w !! ps_vendor e.2))
      (filter (fun e => is_due env e.2 = true) (map_to_list (payout_schedules w))).

Definition newer (x y : nat * PayoutAccount) : nat * PayoutAccount :=
  if pa_created_at x.2 <? pa_created_at y.2 then y else x.

(** [vendor.payout_accounts.filter(is_primary=True).first()] under the
    ordering [-is_primary, -created_at] of the model: the primary account
    created last, [None] when the vendor has no primary account. *)
Definition primary_account (vendor : nat) (w : World) : option nat :=
  match filter (fun e => pa_vendor e.2 = vendor /\ is_primary e.2 = true)
               (map_to_list (payout_accounts w)) with
  | [] => None
  | x :: l => Some (foldl newer x l).1
  end.

(** One turn of the loop of [process_scheduled_payouts]; an exception is
    logged and the loop continues. *)
Definition sweep_schedule (env : Env)
    (row : nat * PayoutSchedule * option VendorBalance)
    (st : nat * World) : nat * World :=
  let '(schedule_id, schedule, balance) := row in
  let '(processed_count, w) := st in
  match balance with
  | None => (processed_count, w)
  | Some balance =>
      (* Check if vendor has sufficient balance *)
      if minimum_payout_amount schedule <=? available_balance balance
      then
        let create :=
          do payout <- Payout_objects_create env (ps_vendor schedule)
                         (primary_account (ps_vendor schedule) w)
                         (available_balance balance)
                         PayoutMethod.BANK_TRANSFER None "USD";
          delay (process_payout_task (default 0%nat (id payout))) in
        match create w with
        | (Raise _, w) => (processed_count, w)
        | (Ok _, w) =>
            (S processed_count, snd (update_next_payout_date env schedule_id schedule w))
        end
      else
        (processed_count, snd (update_next_payout_date env schedule_id schedule w))
  end.

Definition process_scheduled_payouts (env : Env) (w : World) : nat * World :=
  foldl (fun st row => sweep_schedule env row st) (0%nat, w) (due_schedules env w).

(** ** paypal_processor.py: the webhook handlers *)

#[warnings="-register-all"]
Inductive Json :=
| JNull
| JBool (b : bool)
| JString (s : string)
| JNumber (n : Z)
| JArray (items : list Json)
| JObject (fields : list (string * Json)).

(** [d.get(key, default)]; on a value that is no dict it is an
    [AttributeError]. *)
Definition get (d : Json) (key : string) (default : Json) : Result Json :=
  match d with
  | JObject fields =>
      Ok (match find (fun kv => bool_decide (kv.1 = key)) fields with
          | Some kv => kv.2
          | None => default
          end)
  | _ => Raise (AttributeError "object has no attribute 'get'")
  end.

(** [j == s] for a string literal [s] *)
Definition eq_str (j : Json) (s : string) : bool :=
  match j with
  | JString t => bool_decide (t = s)
  | _ => false
  end.

Record WebhookResult := mkWebhookResult {
  success : bool;
  message : string
}.

Definition lift {A} (r : Result A) : M A := fun w => (r, w).

(** The update of the payout is commented out in the source; the handler
    reads the two identifiers, logs them and answers. *)
Definition handle_payout_success (resource : Json) : M WebhookResult :=
  do payout_item_id <- lift (get resource "payout_item_id" JNull);
  do transaction_id <- lift (get resource "transaction_id" JNull);
  ret (mkWebhookResult true "Payout success processed").

(** [errors[0].get('message', 'Unknown error')] when [errors] is truthy
    and [len(errors) > 0]; [True] and a number that is not 0 are truthy
    and have no [len]. *)
Definition first_error_message (errors : Json) : Result Json :=
  match errors with
  | JArray (e :: _) => get e "message" (JString "Unknown error")
  | JString (String c _) => Raise (AttributeError "'str' object has no attribute 'get'")
  | JObject (_ :: _) => Raise (KeyError "0")
  | JBool true => Raise (TypeError "object of type 'bool' has no len()")
  | JNumber n =>
      if n =? 0 then Ok (JString "Unknown error")
      else Raise (TypeError "object of type 'int' has no len()")
  | _ => Ok (JString "Unknown error")
  end.

Definition handle_payout_failed (resource : Json) : M WebhookResult :=
  do payout_item_id <- lift (get resource "payout_item_id" JNull);
  do errors <- lift (get resource "errors" (JArray []));
  do error_message <- lift (first_error_message errors);
  ret (mkWebhookResult true "Payout failure processed").

Definition handle_payout_cancelled (resource : Json) : M WebhookResult :=
  do payout_item_id <- lift (get resource "payout_item_id" JNull);
  ret (mkWebhookResult true "Payout cancellation processed").

Definition handle_batch_success (resource : Json) : M WebhookResult :=
  do batch_header <- lift (get resource "batch_header" (JObject []));
  do batch_id <- lift (get batch_header "payout_batch_id" JNull);
  ret (mkWebhookResult true "Batch success processed").

Definition handle_batch_denied (resource : Json) : M WebhookResult :=
  do batch_header <- lift (get resource "batch_header" (JObject []));
  do batch_id <- lift (get batch_header "payout_batch_id" JNull);
  ret (mkWebhookResult true "Batch denial processed").

Definition webhook_handler (webhook_data : Json) (w : World) : WebhookResult * World :=
  let handled :=
    do event_type <- lift (get webhook_data "event_type" (JString ""));
    do resource <- lift (get webhook_data "resource" (JObject []));
    (* Handle different webhook event types *)
    if eq_str event_type "PAYMENT.PAYOUTS-ITEM.SUCCEEDED"
    then handle_payout_success resource
    else if eq_str event_type "PAYMENT.PAYOUTS-ITEM.FAILED"
    then handle_payout_failed resource
    else if eq_str event_type "PAYMENT.PAYOUTS-ITEM.CANCELED"
    then handle_payout_cancelled resource
    else if eq_str event_type "PAYMENT.PAYOUTSBATCH.SUCCEEDED"
    then handle_batch_success resource
    else if eq_str event_type "PAYMENT.PAYOUTSBATCH.DENIED"
    then handle_batch_denied resource
    else ret (mkWebhookResult true "Webhook received but not processed") in
  match handled w with
  | (Ok result, w) => (result, w)
  | (Raise e, w) => (mkWebhookResult false (str_Exn e), w)
  end.

(** ** Predicates used in the statements *)

(** What a successful [save] of [self] in [w] leaves behind: the
    instance [self'] as the caller holds it afterwards, stored under the
    key [i] in [w']. *)
Record saved (env : Env) (self : Payout) (w : World)
    (self' : Payout) (w' : World) (i : nat) : Prop := mkSaved {
  saved_id : id self' = Some i;
  saved_payouts : payouts w' = <[i := self']> (payouts w);
  saved_key : match id self with
              | Some j => i = j
              | None => payouts w !! i = None
              end;
  saved_net_amount :
    net_amount self' = Some (amount self - commission_fee self - processing_fee self);
  saved_reference_number :
    reference_number self' =
      if decide (reference_number self = "")
      then generate_reference (uuid4 env (uuid_calls w))
      else reference_number self;
  saved_reference_free : forall j q,
    payouts w !! j = Some q -> j <> i -> reference_number q <> reference_number self';
  saved_payout_account : payout_account self' = payout_account self
                         /\ payout_account self <> None;
  saved_amount : amount self' = amount self;
  saved_fees : commission_fee self' = commission_fee self
               /\ processing_fee self' = processing_fee self;
  saved_vendor : vendor self' = vendor self;
  saved_status : status self' = status self;
  saved_retry_count : retry_count self' = retry_count self;
  saved_failure_reason : failure_reason self' = failure_reason self;
  saved_processor_reference : processor_reference self' = processor_reference self;
  saved_completed_at : completed_at self' = completed_at self
                       /\ processed_at self' = processed_at self;
  saved_balances : vendor_balances w' = vendor_balances w;
  saved_schedules : payout_schedules w' = payout_schedules w;
  saved_accounts : payout_accounts w' = payout_accounts w;
  saved_queue : queue w' = queue w
}.

(** The unique index holds: two rows with one reference number are one row. *)
Definition references_unique (t : gmap nat Payout) : Prop :=
  forall i j p q, t !! i = Some p -> t !! j = Some q ->
    reference_number p = reference_number q -> i = j.

(** Every stored row has the net amount its fees give. *)
Definition net_amounts_derived (t : gmap nat Payout) : Prop :=
  forall i p, t !! i = Some p ->
    net_amount p = Some (amount p - commission_fee p - processing_fee p).

(** The schedule as [update_next_payout_date] saves it. *)
Definition advanced (env : Env) (s : PayoutSchedule) : PayoutSchedule :=
  set_schedule (next_date env (schedule_type s)) (Some (now env)) s.

(** The loop of the sweep over [rows], from the count [c] and the world [w]. *)
Definition sweep_rows (env : Env)
    (rows : list (nat * PayoutSchedule * option VendorBalance))
    (c : nat) (w : World) : nat * World :=
  foldl (fun st row => sweep_schedule env row st) (c, w) rows.

(** The balance [b] after [a] cents moved from available to paid out. *)
Definition paid_out (a : Z) (b : VendorBalance) : VendorBalance :=
  set_balance (available_balance b - a) (total_payouts b + a) b.

(** The net amount that [Payout.save] derives for the row has room in its
    column, as the amount and the fees of a stored row have in theirs. *)
Definition net_amount_fits (p : Payout) : Prop :=
  fits_12_digits (amount p - commission_fee p - processing_fee p) = true.

(** No vendor has a negative available balance. *)
Definition balances_nonnegative (w : World) : Prop :=
  forall v b, vendor_balances w !! v = Some b -> 0 <= available_balance b.

(** From [w] to [w'] every balance that is still there has kept the sum of
    what is available and what was paid out. *)
Definition balances_paired (w w' : World) : Prop :=
  forall v b b', vendor_balances w !! v = Some b ->
    vendor_balances w' !! v = Some b' ->
    available_balance b' + total_payouts b' = available_balance b + total_payouts b.

(** ** Further predicates *)

(** An outcome of [requests.request] after which the loop of
    [_make_paypal_request] goes on to the next attempt when one is left: a
    timeout, a connection error, another exception, or a response with
    status 401. *)
Definition retryable (o : HttpOutcome) : bool :=
  match o with
  | Responded response => status_code response =? 401
  | Timeout _ | ConnectionError _ | OtherException _ => true
  end.

(** A response with an error status other than 401 on which
    [_extract_error_message] raises: the exception is no [PayPalError], so
    the loop treats the attempt like one that got no answer. *)
Definition extraction_fails (o : HttpOutcome) : bool :=
  match o with
  | Responded response =>
      (400 <=? status_code response) && negb (status_code response =? 401)
      && match error_message response with Raise _ => true | Ok _ => false end
  | Timeout _ | ConnectionError _ | OtherException _ => false
  end.

(** What [retry_failed_payouts] selects: failed, with fewer than three
    retries. *)
Definition eligible_for_retry (p : Payout) : Prop :=
  status p = PayoutStatus.FAILED /\ (retry_count p < 3)%nat.

(** [p'] is [p] put back in line: pending, one more retry counted, the
    request itself as it was. *)
Definition retried (p p' : Payout) : Prop :=
  status p' = PayoutStatus.PENDING
  /\ retry_count p' = S (retry_count p)
  /\ amount p' = amount p
  /\ vendor p' = vendor p
  /\ payout_account p' = payout_account p
  /\ failure_reason p' = failure_reason p.

(** The body of the loop of [retry_failed_payouts]. *)
Definition retry_payout (env : Env) (e : nat * Payout) : M unit :=
  do payout <- Payout_save env
    (set_status PayoutStatus.PENDING
      (set_retry_count (S (retry_count e.2)) (set_id (Some e.1) e.2)));
  delay (process_payout_task e.1).

(** Every stored payout has a payout account and a reference number, as
    the database and [save] see to. *)
Definition stored_complete (t : gmap nat Payout) : Prop :=
  forall i p, t !! i = Some p ->
    payout_account p <> None /\ reference_number p <> "".


(** The fields of a payout that say what was asked for, and to whom it
    goes. *)
Definition same_request (p p' : Payout) : Prop :=
  vendor p' = vendor p
  /\ amount p' = amount p
  /\ commission_fee p' = commission_fee p
  /\ processing_fee p' = processing_fee p
  /\ payout_account p' = payout_account p
  /\ reference_number p' = reference_number p.

(** The payout table as [save] and the database keep it. *)
Definition table_ok (t : gmap nat Payout) : Prop :=
  references_unique t /\ net_amounts_derived t /\ stored_complete t.

(** Every row of [t] is a row of [t'], for the same request. *)
Definition rows_kept (t t' : gmap nat Payout) : Prop :=
  forall j p, t !! j = Some p -> exists p', t' !! j = Some p' /\ same_request p p'.

(** ** The entry points

    What runs against the tables: a create request is served, one of the
    three tasks runs, a webhook arrives; each in the environment of its
    moment. *)
Inductive Event :=
| Create (request : Request)
| ProcessPayout (retries payout_id : nat)
| RetryFailedPayouts
| ProcessScheduledPayouts
| Webhook (webhook_data : Json).

Definition handle (env : Env) (e : Event) (w : World) : World :=
  match e with
  | Create request => (PayoutViewSet_create env request w).2
  | ProcessPayout retries payout_id => (process_payout env retries payout_id w).2
  | RetryFailedPayouts => (retry_failed_payouts env w).2
  | ProcessScheduledPayouts => (process_scheduled_payouts env w).2
  | Webhook webhook_data => (webhook_handler webhook_data w).2
  end.

Definition history (events : list (Env * Event)) (w : World) : World :=
  foldl (fun w e => handle e.1 e.2 w) w events.

Definition is_task_run (e : Event) : bool :=
  match e with ProcessPayout _ _ => true | _ => false end.

(** The balance rows of [w'] are those of [w], each with some amount moved
    from available to paid out and nothing else changed. *)
Definition balances_moved (w w' : World) : Prop :=
  forall v, exists a,
    vendor_balances w' !! v = paid_out a <$> vendor_balances w !! v.

(** ** models.py: PayoutAccount.save *)

Definition set_is_primary (v : bool) (a : PayoutAccount) : PayoutAccount :=
  mkPayoutAccount (pa_vendor a) (account_type a) v (verification_status a)
    (email a) (stripe_account_id a) (pa_created_at a).

Definition set_verification_status (v : VerificationStatus.t) (a : PayoutAccount)
    : PayoutAccount :=
  mkPayoutAccount (pa_vendor a) (account_type a) (is_primary a) v
    (email a) (stripe_account_id a) (pa_created_at a).

Definition set_pa_created_at (v : Z) (a : PayoutAccount) : PayoutAccount :=
  mkPayoutAccount (pa_vendor a) (account_type a) (is_primary a)
    (verification_status a) (email a) (stripe_account_id a) v.

Definition set_payout_accounts (t : gmap nat PayoutAccount) (w : World) : World :=
  mkWorld t (payouts w) (payout_schedules w) (vendor_balances w)
    (uuid_calls w) (queue w).

(** [PayoutAccount.objects.filter(vendor=vendor, is_primary=True)
    .update(is_primary=False)] *)
Definition demote_primary (vendor : nat) (t : gmap nat PayoutAccount)
    : gmap nat PayoutAccount :=
  (fun a => if decide (pa_vendor a = vendor /\ is_primary a = true)
            then set_is_primary false a else a) <$> t.

(** [PayoutAccount.save] of the instance with the primary key [pk], [None]
    for an instance that is not stored yet: the row is written under its
    key, a new row under a key the table does not use, with [created_at]
    set ([auto_now_add]).  The key of the row is returned.  The columns
    that nothing here reads ([verified_at], [paypal_merchant_id], the bank
    details) are not part of the table. *)
Definition PayoutAccount_save (env : Env) (pk : option nat) (self : PayoutAccount)
    : M nat := fun w =>
  (* Ensure only one primary account per vendor *)
  let t := if is_primary self
           then demote_primary (pa_vendor self) (payout_accounts w)
           else payout_accounts w in
  match pk with
  | Some i => (Ok i, set_payout_accounts (<[i := self]> t) w)
  | None =>
      let i := fresh (dom t) in
      (Ok i, set_payout_accounts (<[i := set_pa_created_at (now env) self]> t) w)
  end.

(** At most one account of a vendor is marked primary. *)
Definition one_primary (t : gmap nat PayoutAccount) : Prop :=
  forall i j a b, t !! i = Some a -> t !! j = Some b ->
    pa_vendor a = pa_vendor b -> is_primary a = true -> is_primary b = true ->
    i = j.

(** ** The verification of an account *)

(** The dict a processor returns from [verify_account]. *)
Inductive Verification :=
| Verified
| NotVerified (error : string).

(** [c in s] for a character [c] *)
Fixpoint contains (c : ascii) (s : string) : bool :=
  match s with
  | EmptyString => false
  | String x s' => Ascii.eqb x c || contains c s'
  end.

(** [s.split(c)[-1]]: what follows the last [c] in [s], all of [s] when
    [c] is not in it. *)
Fixpoint after_last (c : ascii) (s : string) : string :=
  match s with
  | EmptyString => EmptyString
  | String x s' =>
      if contains c s' then after_last c s'
      else if Ascii.eqb x c then s' else s
  end.

(** stripe_processor.py, [StripeProcessor.verify_account].  For a bank
    account a token and a connected account are created at Stripe and the
    id of the account is saved; [connect] stands for this branch, whatever
    it does.  Every other type is answered with a failure. *)
Definition StripeProcessor_verify_account
    (connect : nat -> PayoutAccount -> M (PayoutAccount * Verification))
    (pk : nat) (payout_account : PayoutAccount)
    : M (PayoutAccount * Verification) :=
  if decide (account_type payout_account = AccountType.BANK_ACCOUNT)
  then connect pk payout_account
  else ret (payout_account, NotVerified "Unsupported account type for Stripe").

(** paypal_processor.py, [PayPalProcessor.verify_account]: the format of
    the e-mail address is checked, the account is saved, the answer is a
    success.  [PayoutAccountError] is a [PayoutError]. *)
Definition PayPalProcessor_verify_account (env : Env)
    (pk : nat) (payout_account : PayoutAccount)
    : M (PayoutAccount * Verification) :=
  match email payout_account with
  | None => raise (PayoutError "PayPal account email is required")
  | Some "" => raise (PayoutError "PayPal account email is required")
  | Some email =>
      (* Check if email is valid format (basic validation) *)
      if negb (contains "@" email) || negb (contains "." (after_last "@" email))
      then raise (PayoutError "Invalid email format")
      else
        run PayoutAccount_save env (Some pk) payout_account;
        ret (payout_account, Verified)
  end.

(** views.py, [PayoutAccountViewSet.get_processor] *)
Definition PayoutAccountViewSet_get_processor (account_type : AccountType.t)
    : M Processor :=
  match account_type with
  | AccountType.STRIPE => ret StripeProcessor
  | AccountType.PAYPAL => ret PayPalProcessor
  | _ => raise (CustomException "Unsupported account type." 400)
  end.

Definition processor_verify_account (env : Env)
    (connect : nat -> PayoutAccount -> M (PayoutAccount * Verification))
    (processor : Processor)
    : nat -> PayoutAccount -> M (PayoutAccount * Verification) :=
  match processor with
  | StripeProcessor => StripeProcessor_verify_account connect
  | PayPalProcessor => PayPalProcessor_verify_account env
  end.

(** views.py, [PayoutAccountViewSet.verify], from the account that
    [get_object] found under [pk]. *)
Definition PayoutAccountViewSet_verify (env : Env)
    (connect : nat -> PayoutAccount -> M (PayoutAccount * Verification))
    (pk : nat) (payout_account : PayoutAccount) : M PayoutAccount :=
  (* Implement verification logic based on account type *)
  do processor <- PayoutAccountViewSet_get_processor (account_type payout_account);
  do verification_result <-
    processor_verify_account env connect processor pk payout_account;
  match verification_result.2 with
  | Verified =>
      let payout_account :=
        set_verification_status VerificationStatus.VERIFIED verification_result.1 in
      run PayoutAccount_save env (Some pk) payout_account;
      ret payout_account
  | NotVerified error =>
      let payout_account :=
        set_verification_status VerificationStatus.FAILED verification_result.1 in
      run PayoutAccount_save env (Some pk) payout_account;
      raise (CustomException ("Account verification failed: " +:+ error) 400)
  end.

(** The check of [PayPalProcessor.verify_account] on the e-mail address. *)
Definition paypal_email_accepted (e : option string) : bool :=
  match e with
  | None => false
  | Some email =>
      negb (bool_decide (email = ""))
      && contains "@" email && contains "." (after_last "@" email)
  end.

(** ** views.py: the totals of PayoutSummaryView

    [vendor.payouts.filter(status__in=statuses)
       .aggregate(total=Sum('amount'))['total'] or 0]: the sum is [None]
    when no row is selected. *)
Definition payouts_total (v : nat) (statuses : list PayoutStatus.t) (w : World) : Z :=
  match filter (fun e => vendor e.2 = v /\ status e.2 ∈ statuses)
               (map_to_list (payouts w)) with
  | [] => 0
  | rows => foldr (fun e total => amount e.2 + total) 0 rows
  end.

(** The entry [total_payouts] of the summary. *)
Definition summary_total_payouts (v : nat) (w : World) : Z :=
  payouts_total v [PayoutStatus.COMPLETED] w.

(** The entry [pending_payouts] of the summary. *)
Definition summary_pending_payouts (v : nat) (w : World) : Z :=
  payouts_total v [PayoutStatus.PENDING; PayoutStatus.PROCESSING] w.

(** What a row adds to a total. *)
Definition counted (v : nat) (statuses : list PayoutStatus.t) (p : Payout) : Z :=
  if decide (vendor p = v /\ status p ∈ statuses) then amount p else 0.
(** ** Concrete scenarios

    The worlds, requests and environments the examples below are run on. *)

Module Scenario.

(** Two version-4 UUIDs that agree on their first eight hexadecimal
    digits. *)
Definition uuid_a : Z := 0x1234abcd00004000800000000000002a.
Definition uuid_b : Z := 0x1234abcd11114111911111111111113b.

(** A source of UUIDs whose first eight digits all differ. *)
Definition distinct_uuids (n : nat) : Z := uuid_a + Z.of_nat n * 2 ^ 96.

(** A source of UUIDs that repeats the first eight digits. *)
Definition colliding_uuids (n : nat) : Z :=
  match n with O => uuid_a | _ => uuid_b end.

(** The minimum payout is 10.00, it is 1,000,000 seconds after the epoch
    (day 11), Stripe makes the transfer; PayPal does not answer. *)
Definition env : Env :=
  mkEnv 1000 3 1000000 distinct_uuids (Transfer "tr_1") (Ok "token")
    (fun _ => Timeout "timed out").

Definition with_uuids (uuids : nat -> Z) (e : Env) : Env :=
  mkEnv (MIN_PAYOUT_AMOUNT e) (PAYPAL_MAX_RETRIES e) (now e) uuids
    (stripe_Transfer_create e) (paypal_access_token e) (requests_request e).

Definition with_stripe (o : StripeOutcome) (e : Env) : Env :=
  mkEnv (MIN_PAYOUT_AMOUNT e) (PAYPAL_MAX_RETRIES e) (now e) (uuid4 e)
    o (paypal_access_token e) (requests_request e).

Definition with_requests (r : nat -> HttpOutcome) (e : Env) : Env :=
  mkEnv (MIN_PAYOUT_AMOUNT e) (PAYPAL_MAX_RETRIES e) (now e) (uuid4 e)
    (stripe_Transfer_create e) (paypal_access_token e) r.

(** Vendor 1 has 100.00 available and one verified primary account,
    number 7, of the given type. *)
Definition account (t : AccountType.t) : PayoutAccount :=
  mkPayoutAccount 1 t true VerificationStatus.VERIFIED
    (Some "vendor@example.com") (Some "acct_1") 5.

Definition balance : VendorBalance :=
  mkVendorBalance 10000 0 0 0 0 None "USD".

Definition world (t : AccountType.t) : World :=
  mkWorld {[ 7%nat := account t ]} ∅ ∅ {[ 1%nat := balance ]} 0 [].

(** A request of vendor 1 for [amount] cents to account 7. *)
Definition request (amount : Z) : Request :=
  mkRequest 1 (Some amount) (Some 7%nat).

(** A new payout of 60.00 with fees of 2.50 and 0.30 for which the caller
    supplies a net amount of 60.00. *)
Definition new_payout : Payout :=
  mkPayout None 1 (Some 7%nat) 6000 "USD" PayoutMethod.STRIPE
    PayoutStatus.PENDING 250 30 (Some 6000) None None None "" None None
    0%nat None.

(** Stripe cannot be reached: a transient failure. *)
Definition env_stripe_unreachable : Env :=
  with_stripe (StripeError Transient "Connection reset by peer") env.

(** PayPal rejects the request: a permanent failure. *)
Definition env_paypal_rejects : Env :=
  with_requests
    (fun _ => Responded (mkResponse 400 (Ok "RECEIVER_UNREGISTERED")
                           (NotJSON "Expecting value: line 1 column 1 (char 0)"))) env.

(** Payout 0 of vendor 1: 60.00 to account 7, in the given status. *)
Definition payout (s : PayoutStatus.t) : Payout :=
  mkPayout (Some 0%nat) 1 (Some 7%nat) 6000 "USD" PayoutMethod.STRIPE s
    0 0 (Some 6000) (Some 900000) None None "PO-1234ABCD" None None
    0%nat (Some 900000).

(** Vendor 1 has 100.00 available and payout 0 in the given status. *)
Definition world_with_payout (s : PayoutStatus.t) : World :=
  mkWorld {[ 7%nat := account AccountType.STRIPE ]} {[ 0%nat := payout s ]}
    ∅ {[ 1%nat := balance ]} 1 [].

(** Schedule 3 of vendor 1: weekly, due on day 11, from 50.00 on. *)
Definition schedule (t : ScheduleType.t) (due : Z) : PayoutSchedule :=
  mkPayoutSchedule 1 t true (Some due) 5000 true None.

Definition with_schedule (s : PayoutSchedule) (w : World) : World :=
  set_payout_schedules {[ 3%nat := s ]} w.

(** The schedule of vendor 1 falls due on the day of the sweep. *)
Definition world_due (t : ScheduleType.t) : World :=
  with_schedule (schedule t 11) (world AccountType.STRIPE).

(** Payout 0 is with PayPal as item [ITEM-1] of a batch; PayPal reports
    that the item succeeded. *)
Definition world_in_flight : World :=
  mkWorld {[ 7%nat := account AccountType.PAYPAL ]}
    {[ 0%nat := set_processor_reference (Some "BATCH-1 ITEM-1")
                  (payout PayoutStatus.PROCESSING) ]}
    ∅ {[ 1%nat := set_balance 4000 6000 balance ]} 1 [].

Definition item_succeeded : Json :=
  JObject [("event_type", JString "PAYMENT.PAYOUTS-ITEM.SUCCEEDED");
           ("resource", JObject [("payout_item_id", JString "ITEM-1");
                                 ("transaction_id", JString "TX-9")])].

(** Vendor 1 has 30.00 available, less than the 50.00 of its schedule. *)
Definition low_balance : VendorBalance := set_balance 3000 0 balance.


(** The row of payout 0 after a run, if there is one. *)
Definition payout_0 {A} (r : A * World) : option Payout := payouts r.2 !! 0%nat.

(** The balance of vendor 1 after a run. *)
Definition balance_1 {A} (r : A * World) : option (Z * Z) :=
  (fun b => (available_balance b, total_payouts b)) <$> vendor_balances r.2 !! 1%nat.

End Scenario.
(** ** Further scenarios *)

Module Cases.

(** PayPal times out twice and then accepts the batch. *)
Definition accepted : Response :=
  mkResponse 201 (Ok "Unknown PayPal error") (JSON (Some ("BATCH-1", "PENDING"))).

Definition env_paypal_recovers : Env :=
  Scenario.with_requests
    (fun n => match n with
              | 0%nat | 1%nat => Timeout "timed out"
              | _ => Responded accepted
              end) Scenario.env.

(** PayPal answers 503 once and would accept the batch afterwards. *)
Definition unavailable : Response :=
  mkResponse 503 (Ok "Service Unavailable")
    (NotJSON "Expecting value: line 1 column 1 (char 0)").

Definition env_paypal_unavailable_once : Env :=
  Scenario.with_requests
    (fun n => match n with
              | 0%nat => Responded unavailable
              | _ => Responded accepted
              end) Scenario.env.

(** PayPal times out three times and would accept the batch at the fourth
    attempt. *)
Definition env_paypal_recovers_late : Env :=
  Scenario.with_requests
    (fun n => match n with
              | 0%nat | 1%nat | 2%nat => Timeout "timed out"
              | _ => Responded accepted
              end) Scenario.env.

(** PayPal answers 500 with the JSON body [null], on which
    [_extract_error_message] raises a [TypeError], and would accept the
    batch afterwards. *)
Definition unreadable : Response :=
  mkResponse 500 (Raise (TypeError "argument of type 'NoneType' is not iterable"))
    (JSON None).

Definition env_paypal_unreadable_once : Env :=
  Scenario.with_requests
    (fun n => match n with
              | 0%nat => Responded unreadable
              | _ => Responded accepted
              end) Scenario.env.

End Cases.

(** * Properties *)

(** ** Payout.save *)

Lemma reference_taken_false (self : Payout) (t : gmap nat Payout) :
  reference_taken self t = false ->
  forall j q, t !! j = Some q -> Some j <> id self ->
    reference_number q <> reference_number self.
Proof.
  unfold reference_taken. intros Hdec j q Hq Hj Href.
  apply bool_decide_eq_false in Hdec. apply Hdec.
  exists j, q. auto.
Qed.

Lemma reference_taken_true (self : Payout) (t : gmap nat Payout) j q :
  t !! j = Some q -> Some j <> id self ->
  reference_number q = reference_number self ->
  reference_taken self t = true.
Proof.
  intros Hq Hj Href. unfold reference_taken.
  apply bool_decide_eq_true. exists j, q. auto.
Qed.

Lemma fresh_key_unused {V} (t : gmap nat V) : t !! fresh (dom t) = None.
Proof. apply not_elem_of_dom, is_fresh. Qed.

Lemma Payout_save_Ok env self w self' w' :
  Payout_save env self w = (Ok self', w') ->
  exists i, saved env self w self' w' i.
Proof.
  unfold Payout_save, Model_save.
  destruct (decide (reference_number self = "")) as [Hempty | Hset];
    destruct self as [oid v acc am cur pm st cf pf na ra pa ca rn pr fr rc ua];
    simpl in *;
    (destruct acc as [a |]; [| discriminate]);
    match goal with
    | |- context [reference_taken ?p ?t] =>
        destruct (reference_taken p t) eqn:Htaken; [discriminate |]
    end;
    pose proof (reference_taken_false _ _ Htaken) as Hfree; simpl in Hfree;
    destruct oid as [k |]; intros [= <- <-].
  all: eexists; split; simpl; try reflexivity; auto.
  all: try (rewrite decide_True by assumption; reflexivity).
  all: try (rewrite decide_False by assumption; reflexivity).
  all: try (intros j q Hq Hne; apply (Hfree j q Hq); congruence).
  all: try apply fresh_key_unused.
  all: try (split; [reflexivity | discriminate]).
Qed.

Lemma Payout_save_ignores_net_amount env self supplied w :
  Payout_save env (set_net_amount supplied self) w = Payout_save env self w.
Proof.
  unfold Payout_save. simpl.
  destruct (decide (reference_number self = "")); reflexivity.
Qed.

Lemma saved_lookup env self w self' w' i :
  saved env self w self' w' i -> payouts w' !! i = Some self'.
Proof. intros H. rewrite (saved_payouts _ _ _ _ _ _ H). apply lookup_insert_eq. Qed.

Lemma saved_lookup_ne env self w self' w' i j :
  saved env self w self' w' i -> j <> i -> payouts w' !! j = payouts w !! j.
Proof.
  intros H Hne. rewrite (saved_payouts _ _ _ _ _ _ H).
  apply lookup_insert_ne. congruence.
Qed.

(** C6. Whatever net amount the caller supplies, a payout that [save]
    persists is stored with [net_amount = amount - commission_fee -
    processing_fee]; the amount and the fees are stored as given. *)
Theorem C6_net_amount_recomputed_on_save env self supplied w self' w' :
  Payout_save env (set_net_amount supplied self) w = (Ok self', w') ->
  exists i, payouts w' !! i = Some self'
    /\ net_amount self' = Some (amount self' - commission_fee self' - processing_fee self')
    /\ amount self' = amount self
    /\ commission_fee self' = commission_fee self
    /\ processing_fee self' = processing_fee self.
Proof.
  rewrite Payout_save_ignores_net_amount. intros Hsave.
  destruct (Payout_save_Ok _ _ _ _ _ Hsave) as [i H]. exists i.
  destruct (saved_fees _ _ _ _ _ _ H) as [Hc Hp].
  pose proof (saved_amount _ _ _ _ _ _ H) as Ha.
  repeat split; eauto using saved_lookup.
  rewrite (saved_net_amount _ _ _ _ _ _ H). congruence.
Qed.

(** The caller supplies 60.00; 57.20 is stored. *)
Lemma C6_witness :
  exists self' w',
    Payout_save Scenario.env
      (set_net_amount (Some 6000) Scenario.new_payout)
      (Scenario.world AccountType.STRIPE) = (Ok self', w')
    /\ net_amount self' = Some 5720
    /\ exists i, payouts w' !! i = Some self'
         /\ net_amount self'
            = Some (amount self' - commission_fee self' - processing_fee self').
Proof.
  eexists _, _. split; [vm_compute; reflexivity |].
  split; [reflexivity |].
  destruct (C6_net_amount_recomputed_on_save Scenario.env Scenario.new_payout
              (Some 6000) (Scenario.world AccountType.STRIPE) _ _ eq_refl)
    as (i & Hrow & Hnet & _).
  exists i. split; assumption.
Defined.

(** Every row a successful [save] leaves in the table has a derived net
    amount if the rows before had. *)
Lemma Payout_save_net_amounts env self w self' w' :
  Payout_save env self w = (Ok self', w') ->
  net_amounts_derived (payouts w) -> net_amounts_derived (payouts w').
Proof.
  intros Hsave Hinv. destruct (Payout_save_Ok _ _ _ _ _ Hsave) as [i H].
  intros j p. destruct (decide (j = i)) as [-> | Hne].
  - rewrite (saved_lookup _ _ _ _ _ _ H). intros [= <-].
    destruct (saved_fees _ _ _ _ _ _ H) as [-> ->].
    rewrite (saved_amount _ _ _ _ _ _ H). apply (saved_net_amount _ _ _ _ _ _ H).
  - rewrite (saved_lookup_ne _ _ _ _ _ _ _ H Hne). apply Hinv.
Qed.

(** ** Reference numbers *)

Lemma nibble_range u i : 0 <= nibble u i < 16.
Proof.
  unfold nibble. change 15 with (Z.ones 4).
  rewrite Z.land_ones by lia. apply Z.mod_pos_bound. lia.
Qed.

Lemma hex_digit_upper n :
  0 <= n < 16 -> is_upper_hex (upper_char (hex_digit n)) = true.
Proof.
  intros Hn.
  assert (forallb (fun k => is_upper_hex (upper_char (hex_digit (Z.of_nat k))))
            (seq 0 16) = true) as Hall by reflexivity.
  rewrite List.forallb_forall in Hall.
  rewrite <- (Z2Nat.id n) by lia. apply Hall, in_seq. lia.
Qed.

Lemma generate_reference_format u :
  is_reference_format (generate_reference u) = true.
Proof.
  unfold generate_reference, hex, is_reference_format, String.append.
  cbn -[hex_digit nibble upper_char is_upper_hex].
  rewrite !hex_digit_upper by apply nibble_range. reflexivity.
Qed.

Lemma generate_reference_not_empty u : generate_reference u <> "".
Proof. unfold generate_reference. discriminate. Qed.

(** The reference number reads only the top 32 bits of the UUID. *)
Lemma generate_reference_top_bits u v :
  Z.shiftr u 96 = Z.shiftr v 96 -> generate_reference u = generate_reference v.
Proof.
  intros Htop.
  assert (forall i, (i < 8)%nat -> nibble u i = nibble v i) as Hnib.
  { intros i Hi. unfold nibble.
    replace (4 * (31 - Z.of_nat i)) with (96 + (28 - 4 * Z.of_nat i)) by lia.
    rewrite <- !Z.shiftr_shiftr by lia. now rewrite Htop. }
  unfold generate_reference, hex.
  cbn -[hex_digit nibble upper_char].
  rewrite !Hnib by lia. reflexivity.
Qed.

Lemma references_unique_saved env self w self' w' i :
  saved env self w self' w' i ->
  references_unique (payouts w) -> references_unique (payouts w').
Proof.
  intros H Huniq a b p q Ha Hb Href.
  destruct (decide (a = i)) as [-> | Hai]; destruct (decide (b = i)) as [-> | Hbi];
    try reflexivity.
  - rewrite (saved_lookup _ _ _ _ _ _ H) in Ha. injection Ha as <-.
    rewrite (saved_lookup_ne _ _ _ _ _ _ _ H Hbi) in Hb.
    exfalso. eapply (saved_reference_free _ _ _ _ _ _ H); eauto.
  - rewrite (saved_lookup _ _ _ _ _ _ H) in Hb. injection Hb as <-.
    rewrite (saved_lookup_ne _ _ _ _ _ _ _ H Hai) in Ha.
    exfalso. eapply (saved_reference_free _ _ _ _ _ _ H); eauto.
  - rewrite (saved_lookup_ne _ _ _ _ _ _ _ H Hai) in Ha.
    rewrite (saved_lookup_ne _ _ _ _ _ _ _ H Hbi) in Hb. eauto.
Qed.

(** C7, as the code has it. A reference number that [save] generates is
    [PO-] followed by eight upper-case hexadecimal digits, taken from the
    first eight digits of a fresh UUID; [save] leaves a reference number
    that is set as it is; and the stored reference numbers stay pairwise
    distinct, because the unique index refuses a row whose reference number
    another row holds. *)
Theorem C7_reference_numbers env self w self' w' :
  Payout_save env self w = (Ok self', w') ->
  references_unique (payouts w) ->
  reference_number self'
    = (if decide (reference_number self = "")
       then generate_reference (uuid4 env (uuid_calls w))
       else reference_number self)
  /\ (reference_number self = "" ->
      is_reference_format (reference_number self') = true)
  /\ references_unique (payouts w').
Proof.
  intros Hsave Huniq. destruct (Payout_save_Ok _ _ _ _ _ Hsave) as [i H].
  pose proof (saved_reference_number _ _ _ _ _ _ H) as Href.
  split; [exact Href |]. split.
  - intros Hempty. rewrite Href, decide_True by exact Hempty.
    apply generate_reference_format.
  - eapply references_unique_saved; eauto.
Qed.

Lemma references_unique_empty : references_unique (∅ : gmap nat Payout).
Proof. intros i j p q Hp. rewrite lookup_empty in Hp. discriminate. Qed.

(** A payout is created, then saved again. *)
Lemma C7_witness :
  exists p w1 p' w2,
    Payout_save Scenario.env Scenario.new_payout
      (Scenario.world AccountType.STRIPE) = (Ok p, w1)
    /\ reference_number p = "PO-1234ABCD"
    /\ Payout_save Scenario.env (set_status PayoutStatus.PROCESSING p) w1
       = (Ok p', w2)
    /\ reference_number p' = "PO-1234ABCD"
    /\ references_unique (payouts w2).
Proof.
  pose (r1 := Payout_save Scenario.env Scenario.new_payout
                (Scenario.world AccountType.STRIPE)).
  pose (p := match r1.1 with Ok p => p | Raise _ => Scenario.new_payout end).
  pose (r2 := Payout_save Scenario.env (set_status PayoutStatus.PROCESSING p) r1.2).
  pose (p' := match r2.1 with Ok p => p | Raise _ => Scenario.new_payout end).
  assert (r1 = (Ok p, r1.2)) as H1 by (vm_compute; reflexivity).
  assert (r2 = (Ok p', r2.2)) as H2 by (vm_compute; reflexivity).
  exists p, r1.2, p', r2.2.
  destruct (C7_reference_numbers _ _ _ _ _ H1 references_unique_empty)
    as (_ & _ & Hu1).
  destruct (C7_reference_numbers _ _ _ _ _ H2 Hu1) as (_ & _ & Hu2).
  repeat split; try exact H1; try exact H2; try exact Hu2;
    vm_compute; reflexivity.
Defined.

(** C7, as stated, fails: two different version-4 UUIDs give one
    reference number. *)
Lemma C7_counterexample :
  forallb is_uuid4 [Scenario.uuid_a; Scenario.uuid_b] = true
  /\ NoDup [Scenario.uuid_a; Scenario.uuid_b]
  /\ ~ NoDup (map generate_reference [Scenario.uuid_a; Scenario.uuid_b]).
Proof.
  split; [reflexivity |]. split.
  - repeat constructor; rewrite ?list_elem_of_In; simpl; intuition discriminate.
  - intros Hnd. apply NoDup_cons in Hnd as [Hnotin _].
    apply Hnotin. vm_compute. left.
Qed.

(** The second of two saves of a new payout that draw such UUIDs is
    refused by the unique index. *)
Example save_with_colliding_uuid :
  let env := Scenario.with_uuids Scenario.colliding_uuids Scenario.env in
  let save := Payout_save env Scenario.new_payout in
  (run save; save) (Scenario.world AccountType.STRIPE)
    = (Raise (IntegrityError "reference_number"),
       set_uuid_calls 2 (save (Scenario.world AccountType.STRIPE)).2).
Proof. vm_compute. reflexivity. Qed.

(** ** The create request: validation *)

Lemma Payout_save_Raise env self w e w' :
  Payout_save env self w = (Raise e, w') ->
  payouts w' = payouts w /\ vendor_balances w' = vendor_balances w
  /\ payout_schedules w' = payout_schedules w
  /\ payout_accounts w' = payout_accounts w /\ queue w' = queue w.
Proof.
  unfold Payout_save, Model_save.
  destruct (decide (reference_number self = "")); simpl;
    repeat match goal with
           | |- context [match ?x with _ => _ end] => destruct x
           end;
    intros [= <- <-]; auto.
Qed.

(** Validation reads the database and writes nothing. *)
Lemma is_valid_world env request w r w' :
  is_valid env request w = (r, w') -> w' = w.
Proof.
  unfold is_valid, PayoutCreateSerializer_validate, vendor_balance.
  unfold_monad.
  destruct (run_field_validation request) as [[a k] |]; [| now intros [= <- <-]].
  destruct (vendor_payout_accounts_get _ _ _) as [acct |]; [| now intros [= <- <-]].
  destruct (decide (verification_status acct <> _)); [now intros [= <- <-] |].
  destruct (vendor_balances w !! _) as [b |]; [| now intros [= <- <-]].
  destruct (can_request_payout env b a); simpl; now intros [= <- <-].
Qed.

Lemma is_valid_Ok env request w amount payout_account_id payout_account w' :
  is_valid env request w = (Ok (amount, payout_account_id, payout_account), w') ->
  run_field_validation request = Ok (amount, payout_account_id)
  /\ vendor_payout_accounts_get (user_vendor request) payout_account_id w
     = Some payout_account
  /\ verification_status payout_account = VerificationStatus.VERIFIED
  /\ exists balance,
       vendor_balances w !! user_vendor request = Some balance
       /\ can_request_payout env balance amount = true.
Proof.
  unfold is_valid, PayoutCreateSerializer_validate, vendor_balance.
  unfold_monad.
  destruct (run_field_validation request) as [[a k] |]; [| discriminate].
  destruct (vendor_payout_accounts_get _ _ _) as [acct |] eqn:Hacct;
    [| discriminate].
  destruct (decide (verification_status acct <> _)) as [| Hver]; [discriminate |].
  destruct (vendor_balances w !! _) as [b |] eqn:Hbal; [| discriminate].
  destruct (can_request_payout env b a) eqn:Hcan; simpl; [| discriminate].
  intros [= <- <- <- <-]. repeat split; eauto.
  destruct (decide (verification_status acct = VerificationStatus.VERIFIED));
    [assumption | contradiction].
Qed.

(** A request that validation rejects is answered with that rejection; no
    table and no balance has changed. *)
Lemma create_rejected_by_validation env request w e w' :
  is_valid env request w = (Raise e, w') ->
  PayoutViewSet_create env request w = (Raise e, w).
Proof.
  intros H. pose proof (is_valid_world _ _ _ _ _ H) as ->.
  unfold PayoutViewSet_create. unfold_monad. now rewrite H.
Qed.

Lemma can_request_payout_false env balance amount :
  available_balance balance < amount \/ amount < MIN_PAYOUT_AMOUNT env ->
  can_request_payout env balance amount = false.
Proof. unfold can_request_payout. intros [H | H]; lia. Qed.

(** C3. A request for more than the available balance, or for less than
    the platform minimum, does not end in the validation error the
    serializer sets out to raise: formatting its message reads
    [balance.minimum_payout_amount], which a [VendorBalance] does not
    have, so an [AttributeError] leaves [validate] and the caller gets a
    server error.  No payout is created and no balance changes. *)
Theorem C3_insufficient_balance_raises_AttributeError
    env request w amount payout_account_id payout_account balance :
  run_field_validation request = Ok (amount, payout_account_id) ->
  vendor_payout_accounts_get (user_vendor request) payout_account_id w
    = Some payout_account ->
  verification_status payout_account = VerificationStatus.VERIFIED ->
  vendor_balances w !! user_vendor request = Some balance ->
  available_balance balance < amount \/ amount < MIN_PAYOUT_AMOUNT env ->
  exists e,
    PayoutViewSet_create env request w = (Raise e, w)
    /\ e = AttributeError
             "'VendorBalance' object has no attribute 'minimum_payout_amount'"
    /\ custom_exception_handler e = ("server_error", 500).
Proof.
  intros Hfields Hacct Hver Hbal Hlow. eexists. split; [| split; reflexivity].
  apply create_rejected_by_validation with (w' := w).
  unfold is_valid, PayoutCreateSerializer_validate, vendor_balance.
  unfold_monad. rewrite Hfields, Hacct, Hbal.
  rewrite decide_False by (rewrite Hver; auto).
  now rewrite (can_request_payout_false _ _ _ Hlow).
Qed.

(** Vendor 1 has 100.00 and asks for 160.00. *)
Lemma C3_witness :
  PayoutViewSet_create Scenario.env (Scenario.request 16000)
    (Scenario.world AccountType.STRIPE)
  = (Raise (AttributeError
       "'VendorBalance' object has no attribute 'minimum_payout_amount'"),
     Scenario.world AccountType.STRIPE).
Proof.
  destruct (C3_insufficient_balance_raises_AttributeError Scenario.env
              (Scenario.request 16000) (Scenario.world AccountType.STRIPE)
              16000 7%nat (Scenario.account AccountType.STRIPE)
              Scenario.balance)
    as (e & Hcreate & -> & _);
    [reflexivity | reflexivity | reflexivity | reflexivity
    | left; reflexivity | exact Hcreate].
Defined.

(** ** Saving again, and the processors *)

Lemma saved_reference_not_empty env self w self' w' i :
  saved env self w self' w' i -> reference_number self' <> "".
Proof.
  intros H. rewrite (saved_reference_number _ _ _ _ _ _ H).
  destruct (decide (reference_number self = "")); [| assumption].
  apply generate_reference_not_empty.
Qed.

(** [save] succeeds on an instance with a payout account whose reference
    number is set and held by no other row. *)
Lemma Payout_save_succeeds env self w :
  payout_account self <> None ->
  reference_number self <> "" ->
  (forall j q, payouts w !! j = Some q -> Some j <> id self ->
     reference_number q <> reference_number self) ->
  exists self' w', Payout_save env self w = (Ok self', w').
Proof.
  intros Hacc Href Hfree. unfold Payout_save, Model_save.
  rewrite decide_False by assumption. simpl.
  destruct (payout_account self); [| contradiction].
  match goal with
  | |- context [reference_taken ?p ?t] =>
      destruct (reference_taken p t) eqn:Htaken
  end.
  - apply bool_decide_eq_true in Htaken as (j & q & Hq & Hj & Heq).
    simpl in *. exfalso. eapply Hfree; eauto.
  - destruct (id self); eauto.
Qed.

(** [save] succeeds on a new instance with a payout account when no row
    holds the reference number the next UUID gives. *)
Lemma Payout_save_new_succeeds env self w :
  payout_account self <> None ->
  reference_number self = "" ->
  (forall j q, payouts w !! j = Some q ->
     reference_number q <> generate_reference (uuid4 env (uuid_calls w))) ->
  exists self' w', Payout_save env self w = (Ok self', w').
Proof.
  intros Hacc Href Hfree. unfold Payout_save, Model_save.
  rewrite decide_True by assumption. simpl.
  destruct (payout_account self); [| contradiction].
  match goal with
  | |- context [reference_taken ?p ?t] =>
      destruct (reference_taken p t) eqn:Htaken
  end.
  - apply bool_decide_eq_true in Htaken as (j & q & Hq & Hj & Heq).
    simpl in *. exfalso. eapply Hfree; eauto.
  - destruct (id self); eauto.
Qed.


Lemma StripeProcessor_process_payout_spec env payout payout_account w :
  exists r, StripeProcessor_process_payout env payout payout_account w
            = (Ok (payout, r), w)
    /\ r = (if falsy (stripe_account_id payout_account)
            then Failure "Stripe account not configured"
            else match stripe_Transfer_create env with
                 | Transfer transfer_id => Success transfer_id
                 | StripeError _ message => Failure message
                 end).
Proof.
  unfold StripeProcessor_process_payout. unfold_monad.
  destruct (falsy (stripe_account_id payout_account)); simpl; [eauto |].
  destruct (stripe_Transfer_create env); eauto.
Qed.

(** The PayPal processor never answers with a failure result: it answers
    with a success, after saving the batch id, or raises [PayoutError]. *)
Lemma PayPalProcessor_process_payout_spec env payout payout_account w r w' :
  PayPalProcessor_process_payout env payout payout_account w = (r, w') ->
  match r with
  | Ok (payout', result) =>
      exists reference w0 i,
        result = Success reference
        /\ Payout_save env (set_processor_reference (Some reference) payout) w0
           = (Ok payout', w')
        /\ saved env (set_processor_reference (Some reference) payout) w0 payout' w' i
        /\ payouts w0 = payouts w /\ vendor_balances w0 = vendor_balances w
  | Raise e =>
      (exists message, e = PayoutError message)
      /\ payouts w' = payouts w /\ vendor_balances w' = vendor_balances w
  end.
Proof.
  unfold PayPalProcessor_process_payout, create_payout_batch.
  destruct (falsy (email payout_account)); [intros [= <- <-]; eauto |].
  destruct (amount payout <=? 0); [intros [= <- <-]; eauto |].
  destruct (Decimal_lt (amount payout) float_0_01); [intros [= <- <-]; eauto |].
  destruct (1000000 <? amount payout); [intros [= <- <-]; eauto |].
  destruct (make_paypal_request env) as [response |]; [| intros [= <- <-]; eauto].
  destruct (body response) as [text | [[batch_id batch_status] |]];
    try (intros [= <- <-]; eauto).
  destruct (Payout_save env _ _) as [[p1 | e1] w1] eqn:Hsave; intros [= <- <-].
  - destruct (Payout_save_Ok _ _ _ _ _ Hsave) as [i H].
    exists batch_id, (set_uuid_calls (S (uuid_calls w)) w), i. auto.
  - destruct (Payout_save_Raise _ _ _ _ _ Hsave) as (Hp & Hb & _).
    split; [eauto |]. now rewrite Hp, Hb.
Qed.

(** ** The create request: what it leaves behind *)

(** [Payout.objects.create] as its two callers use it stores no row: the
    fees of the new instance are the floats of the field defaults, and
    [save] raises when it subtracts them from the [Decimal] amount, after
    it has drawn the UUID of the reference number. *)
Lemma Payout_objects_create_raises
    env vendor payout_account amount payout_method net_amount currency w :
  Payout_objects_create env vendor payout_account amount payout_method
    net_amount currency w
  = (Raise (TypeError
       "unsupported operand type(s) for -: 'decimal.Decimal' and 'float'"),
     set_uuid_calls (S (uuid_calls w)) w).
Proof. reflexivity. Qed.

(** A request that passes validation gets as far as the creation of the
    payout, and no further. *)
Lemma create_after_validation env request w amount payout_account_id payout_account :
  is_valid env request w = (Ok (amount, payout_account_id, payout_account), w) ->
  PayoutViewSet_create env request w
  = (Raise (TypeError
       "unsupported operand type(s) for -: 'decimal.Decimal' and 'float'"),
     set_uuid_calls (S (uuid_calls w)) w).
Proof.
  intros Hvalid. unfold PayoutViewSet_create. unfold_monad.
  rewrite Hvalid. reflexivity.
Qed.

(** Every create request ends in an exception, and all it may have done
    is to draw one UUID. *)
Lemma create_outcome env request w r w' :
  PayoutViewSet_create env request w = (r, w') ->
  (exists e, r = Raise e)
  /\ (w' = w \/ w' = set_uuid_calls (S (uuid_calls w)) w).
Proof.
  destruct (is_valid env request w) as [[[[a k] acct] | e] w1] eqn:Hvalid;
    pose proof (is_valid_world _ _ _ _ _ Hvalid) as ->.
  - rewrite (create_after_validation _ _ _ _ _ _ Hvalid).
    intros [= <- <-]. eauto.
  - rewrite (create_rejected_by_validation _ _ _ _ _ Hvalid).
    intros [= <- <-]. eauto.
Qed.

(** C9. A create request that is rejected has had no side effect: no
    payout is persisted and no balance is modified, and the accounts, the
    schedules and the broker are as before.  This holds for every
    rejection: by the serializer, which writes nothing, and also for a
    request that passes the serializer, such as one for a verified cash
    account with enough balance, which is rejected when the payout is
    created, before a row is written and before a processor is looked
    up. *)
Theorem C9_rejected_create_writes_nothing env request w e w' :
  PayoutViewSet_create env request w = (Raise e, w') ->
  payouts w' = payouts w
  /\ vendor_balances w' = vendor_balances w
  /\ payout_accounts w' = payout_accounts w
  /\ payout_schedules w' = payout_schedules w
  /\ queue w' = queue w.
Proof.
  intros Hcreate.
  destruct (create_outcome _ _ _ _ _ Hcreate) as [_ [-> | ->]]; repeat split.
Qed.

(** Vendor 1 asks for 60.00 of its 100.00 to a verified cash account. *)
Lemma C9_witness :
  exists e w',
    PayoutViewSet_create Scenario.env (Scenario.request 6000)
      (Scenario.world AccountType.CASH) = (Raise e, w')
    /\ payouts w' = payouts (Scenario.world AccountType.CASH)
    /\ vendor_balances w' = vendor_balances (Scenario.world AccountType.CASH).
Proof.
  eexists _, _. split; [reflexivity |].
  destruct (C9_rejected_create_writes_nothing Scenario.env
              (Scenario.request 6000) (Scenario.world AccountType.CASH) _ _
              eq_refl) as (Hp & Hb & _).
  split; [exact Hp | exact Hb].
Defined.

(** C4, as the code has it.  A create request that passes validation
    does not reach a processor adapter: whatever Stripe or PayPal would
    answer, the creation of the payout raises a [TypeError], which the
    caller gets as a server error.  So no payout is left [PENDING] or
    [FAILED], no retry is counted, no failure reason is recorded, and the
    balance, from which nothing was reserved, is as before. *)
Theorem C4_create_raises_before_the_adapter
    env request w requested payout_account_id payout_account :
  is_valid env request w = (Ok (requested, payout_account_id, payout_account), w) ->
  exists e w',
    PayoutViewSet_create env request w = (Raise e, w')
    /\ e = TypeError
             "unsupported operand type(s) for -: 'decimal.Decimal' and 'float'"
    /\ custom_exception_handler e = ("server_error", 500)
    /\ payouts w' = payouts w
    /\ vendor_balances w' = vendor_balances w
    /\ queue w' = queue w.
Proof.
  intros Hvalid. eexists _, _.
  split; [apply (create_after_validation _ _ _ _ _ _ Hvalid) |].
  repeat split.
Qed.

(** Stripe cannot be reached, a transient failure; PayPal rejects the
    request, a permanent one.  The request ends the same way. *)
Lemma C4_witness :
  (exists w',
     PayoutViewSet_create Scenario.env_stripe_unreachable (Scenario.request 6000)
       (Scenario.world AccountType.STRIPE)
     = (Raise (TypeError
          "unsupported operand type(s) for -: 'decimal.Decimal' and 'float'"), w')
     /\ payouts w' = ∅)
  /\ (exists w',
        PayoutViewSet_create Scenario.env_paypal_rejects (Scenario.request 6000)
          (Scenario.world AccountType.PAYPAL)
        = (Raise (TypeError
             "unsupported operand type(s) for -: 'decimal.Decimal' and 'float'"), w')
        /\ payouts w' = ∅).
Proof.
  split.
  - destruct (C4_create_raises_before_the_adapter
                Scenario.env_stripe_unreachable (Scenario.request 6000)
                (Scenario.world AccountType.STRIPE) 6000 7%nat
                (Scenario.account AccountType.STRIPE) eq_refl)
      as (e & w' & Hcreate & -> & _ & Hp & _).
    exists w'. split; [exact Hcreate | exact Hp].
  - destruct (C4_create_raises_before_the_adapter
                Scenario.env_paypal_rejects (Scenario.request 6000)
                (Scenario.world AccountType.PAYPAL) 6000 7%nat
                (Scenario.account AccountType.PAYPAL) eq_refl)
      as (e & w' & Hcreate & -> & _ & Hp & _).
    exists w'. split; [exact Hcreate | exact Hp].
Defined.

(** ** Adapter failures *)

(** A request that times out or loses the connection in every attempt
    ends in a [PayPalError] after [PAYPAL_MAX_RETRIES] attempts. *)
Lemma request_attempts_all_transient env remaining attempt last :
  (forall n, exists m, requests_request env n = Timeout m
                       \/ requests_request env n = ConnectionError m) ->
  exists message, request_attempts env remaining attempt last
                  = Raise (PayPalError message).
Proof.
  intros Hall. revert attempt last.
  induction remaining as [| remaining IH]; intros attempt last; simpl.
  - eauto.
  - destruct (Hall attempt) as [m [-> | ->]]; apply IH.
Qed.

(** A response with status 400 or above that is not 401, and whose error
    message can be extracted, is not retried. *)
Lemma request_attempts_error_status env remaining attempt last response text :
  requests_request env attempt = Responded response ->
  400 <= status_code response -> status_code response <> 401 ->
  error_message response = Ok text ->
  exists message, request_attempts env (S remaining) attempt last
                  = Raise (PayPalError message).
Proof.
  intros Hresp Hcode Hne Htext. simpl. rewrite Hresp, Htext.
  destruct (Z.ltb_spec (status_code response) 400); [lia |].
  destruct (Z.eqb_spec (status_code response) 401); [contradiction |].
  simpl. eauto.
Qed.

(** Whenever the HTTP request fails, the PayPal processor raises. *)
Lemma PayPalProcessor_raises env payout payout_account w e0 :
  make_paypal_request env = Raise e0 ->
  exists e w', PayPalProcessor_process_payout env payout payout_account w
               = (Raise e, w').
Proof.
  intros Hreq. unfold PayPalProcessor_process_payout, create_payout_batch.
  rewrite Hreq.
  repeat match goal with
         | |- context [if ?b then _ else _] => destruct b
         end; eauto.
Qed.

(** ** The task process_payout *)

(** A run of the task on a stored payout whose vendor has a balance that
    has room for the move: the run is [Done], the payout is completed
    whatever its status was, and the amount moves from [available_balance]
    to [total_payouts]. *)
Lemma process_payout_Done env retries payout_id w p b :
  payouts w !! payout_id = Some p ->
  payout_account p <> None ->
  reference_number p <> "" ->
  references_unique (payouts w) ->
  vendor_balances w !! vendor p = Some b ->
  VendorBalance_fits (paid_out (amount p) b) = true ->
  exists p' w',
    process_payout env retries payout_id w = (Done, w')
    /\ payouts w' = <[payout_id := p']> (payouts w)
    /\ status p' = PayoutStatus.COMPLETED
    /\ completed_at p' = Some (now env)
    /\ amount p' = amount p /\ vendor p' = vendor p
    /\ payout_account p' = payout_account p
    /\ reference_number p' = reference_number p
    /\ vendor_balances w'
       = <[vendor p := paid_out (amount p) b]> (vendor_balances w).
Proof.
  intros Hp Hacc Href Huniq Hb Hfits.
  set (completed :=
    set_processor_reference (Some ("PROC-" +:+ reference_number p))
      (set_completed_at (Some (now env))
        (set_processed_at (Some (now env))
          (set_status PayoutStatus.COMPLETED (set_id (Some payout_id) p))))).
  destruct (Payout_save_succeeds env completed w) as (p' & w1 & Hsave);
    [exact Hacc | exact Href | |].
  { intros j q Hq Hj Heq. apply Hj. change (Some j = Some payout_id).
    f_equal. eapply Huniq; eauto. }
  destruct (Payout_save_Ok _ _ _ _ _ Hsave) as [i H].
  pose proof (saved_key _ _ _ _ _ _ H) as Hkey. simpl in Hkey. subst i.
  pose proof (saved_vendor _ _ _ _ _ _ H) as Hv. simpl in Hv.
  pose proof (saved_amount _ _ _ _ _ _ H) as Ha. simpl in Ha.
  pose proof (saved_balances _ _ _ _ _ _ H) as Hbal.
  eexists p', _. split.
  - unfold process_payout, Payout_objects_get. rewrite Hp. simpl.
    unfold_monad. fold completed. rewrite Hsave.
    unfold vendor_balance, VendorBalance_save. rewrite Hv, Hbal, Hb, Ha.
    fold (paid_out (amount p) b). rewrite Hfits. simpl. reflexivity.
  - simpl. rewrite Hbal.
    destruct (saved_completed_at _ _ _ _ _ _ H) as [Hc _].
    destruct (saved_payout_account _ _ _ _ _ _ H) as [Hpa _].
    pose proof (saved_reference_number _ _ _ _ _ _ H) as Hr.
    rewrite decide_False in Hr by exact Href.
    repeat split; auto.
    + apply (saved_payouts _ _ _ _ _ _ H).
    + apply (saved_status _ _ _ _ _ _ H).
Qed.

Lemma paid_out_again a1 a2 b : paid_out a2 (paid_out a1 b) = paid_out (a1 + a2) b.
Proof. unfold paid_out, set_balance. simpl. f_equal; lia. Qed.

(** C2, as the code has it. The task has no guard on the status: every
    run on a stored payout whose net amount fits its column and whose
    balance has room for the move completes the payout, also one that is
    already completed, failed or cancelled, and moves the amount from
    [available_balance] to [total_payouts] again.  After two runs the
    payout is completed as after one run, and the balance has moved by
    twice the amount. *)
Theorem C2_process_payout_repeats env1 env2 retries1 retries2 payout_id w p b :
  payouts w !! payout_id = Some p ->
  payout_account p <> None ->
  reference_number p <> "" ->
  references_unique (payouts w) ->
  vendor_balances w !! vendor p = Some b ->
  net_amount_fits p ->
  VendorBalance_fits (paid_out (amount p) b) = true ->
  VendorBalance_fits (paid_out (2 * amount p) b) = true ->
  exists w1 w2 p1 p2 b1 b2,
    process_payout env1 retries1 payout_id w = (Done, w1)
    /\ process_payout env2 retries2 payout_id w1 = (Done, w2)
    /\ payouts w1 !! payout_id = Some p1 /\ status p1 = PayoutStatus.COMPLETED
    /\ payouts w2 !! payout_id = Some p2 /\ status p2 = PayoutStatus.COMPLETED
    /\ vendor_balances w1 !! vendor p = Some b1
    /\ available_balance b1 = available_balance b - amount p
    /\ total_payouts b1 = total_payouts b + amount p
    /\ vendor_balances w2 !! vendor p = Some b2
    /\ available_balance b2 = available_balance b - 2 * amount p
    /\ total_payouts b2 = total_payouts b + 2 * amount p.
Proof.
  intros Hp Hacc Href Huniq Hb _ Hfits1 Hfits2.
  destruct (process_payout_Done env1 retries1 payout_id w p b
              Hp Hacc Href Huniq Hb Hfits1)
    as (p1 & w1 & Hrun1 & Hrows1 & Hst1 & _ & Ha1 & Hv1 & Hpa1 & Hr1 & Hbal1).
  assert (payouts w1 !! payout_id = Some p1) as Hp1
    by (rewrite Hrows1; apply lookup_insert_eq).
  assert (references_unique (payouts w1)) as Huniq1.
  { rewrite Hrows1. intros i j x y Hx Hy Hxy.
    destruct (decide (i = payout_id)) as [-> | Hi];
      destruct (decide (j = payout_id)) as [-> | Hj]; try reflexivity.
    - rewrite lookup_insert_eq in Hx. injection Hx as <-.
      rewrite lookup_insert_ne in Hy by congruence.
      symmetry. eapply Huniq; eauto. congruence.
    - rewrite lookup_insert_eq in Hy. injection Hy as <-.
      rewrite lookup_insert_ne in Hx by congruence.
      eapply Huniq; eauto. congruence.
    - rewrite lookup_insert_ne in Hx, Hy by congruence. eauto. }
  assert (vendor_balances w1 !! vendor p1 = Some (paid_out (amount p) b)) as Hb1
    by (rewrite Hbal1, Hv1; apply lookup_insert_eq).
  assert (paid_out (amount p1) (paid_out (amount p) b)
          = paid_out (2 * amount p) b) as Htwice.
  { rewrite paid_out_again, Ha1. f_equal. lia. }
  destruct (process_payout_Done env2 retries2 payout_id w1 p1 _ Hp1
              ltac:(congruence) ltac:(congruence) Huniq1 Hb1
              ltac:(rewrite Htwice; exact Hfits2))
    as (p2 & w2 & Hrun2 & Hrows2 & Hst2 & _ & _ & _ & _ & _ & Hbal2).
  exists w1, w2, p1, p2. eexists _, _.
  split; [exact Hrun1 |]. split; [exact Hrun2 |].
  split; [exact Hp1 |]. split; [exact Hst1 |].
  split; [rewrite Hrows2; apply lookup_insert_eq |]. split; [exact Hst2 |].
  split; [rewrite <- Hv1; exact Hb1 |]. split; [reflexivity |].
  split; [reflexivity |].
  split; [rewrite Hbal2, Hv1, Htwice; apply lookup_insert_eq |].
  split; reflexivity.
Qed.

Lemma references_unique_singleton k (p : Payout) :
  references_unique ({[ k := p ]} : gmap nat Payout).
Proof.
  intros i j x y Hx Hy _.
  apply lookup_singleton_Some in Hx as [<- _].
  apply lookup_singleton_Some in Hy as [<- _]. reflexivity.
Qed.

(** Vendor 1 has 100.00; the task runs twice on a payout of 60.00. *)
Lemma C2_witness :
  exists w1 w2 b1 b2,
    process_payout Scenario.env 0 0
      (Scenario.world_with_payout PayoutStatus.PROCESSING) = (Done, w1)
    /\ process_payout Scenario.env 1 0 w1 = (Done, w2)
    /\ vendor_balances w1 !! 1%nat = Some b1
    /\ available_balance b1 = 10000 - 6000
    /\ vendor_balances w2 !! 1%nat = Some b2
    /\ available_balance b2 = 10000 - 2 * 6000
    /\ total_payouts b2 = 0 + 2 * 6000.
Proof.
  destruct (C2_process_payout_repeats Scenario.env Scenario.env 0 1 0
              (Scenario.world_with_payout PayoutStatus.PROCESSING)
              (Scenario.payout PayoutStatus.PROCESSING) Scenario.balance)
    as (w1 & w2 & p1 & p2 & b1 & b2 & H1 & H2 & _ & _ & _ & _ & Hb1 & Ha1 & _
        & Hb2 & Ha2 & Ht2).
  - reflexivity.
  - discriminate.
  - discriminate.
  - apply references_unique_singleton.
  - reflexivity.
  - reflexivity.
  - reflexivity.
  - reflexivity.
  - exists w1, w2, b1, b2. auto 10.
Defined.

(** C2, as stated, fails.  A second run of the task on the same payout
    takes the 60.00 from the available balance a second time and counts
    them in [total_payouts] a second time; a run on a cancelled payout is
    no no-op, it completes the payout and moves the amount. *)
Lemma C2_counterexample :
  (let once := process_payout Scenario.env 0 0
                 (Scenario.world_with_payout PayoutStatus.PROCESSING) in
   let twice := process_payout Scenario.env 1 0 once.2 in
   once.1 = Done /\ twice.1 = Done
   /\ Scenario.balance_1 once = Some (4000, 6000)
   /\ Scenario.balance_1 twice = Some (-2000, 12000))
  /\ (let w := Scenario.world_with_payout PayoutStatus.CANCELLED in
      let r := process_payout Scenario.env 0 0 w in
      status <$> payouts w !! 0%nat = Some PayoutStatus.CANCELLED
      /\ status <$> Scenario.payout_0 r = Some PayoutStatus.COMPLETED
      /\ Scenario.balance_1 r = Some (4000, 6000)).
Proof. vm_compute. repeat split. Qed.

(** ** The balance *)

(** C1. The task subtracts the amount of the payout from
    [available_balance] without the check of [can_request_payout]: on a
    stored payout for more than the vendor has available, whose net amount
    and resulting balance fit their columns, the run is [Done] and leaves a
    negative available balance.  What it takes from [available_balance] it
    adds to [total_payouts], in one write. *)
Theorem C1_process_payout_overdraws env retries payout_id w p b :
  payouts w !! payout_id = Some p ->
  payout_account p <> None ->
  reference_number p <> "" ->
  references_unique (payouts w) ->
  vendor_balances w !! vendor p = Some b ->
  net_amount_fits p ->
  VendorBalance_fits (paid_out (amount p) b) = true ->
  available_balance b < amount p ->
  exists w' b',
    process_payout env retries payout_id w = (Done, w')
    /\ vendor_balances w' !! vendor p = Some b'
    /\ available_balance b' = available_balance b - amount p
    /\ available_balance b' < 0
    /\ total_payouts b' = total_payouts b + amount p.
Proof.
  intros Hp Hacc Href Huniq Hb _ Hfits Hless.
  destruct (process_payout_Done env retries payout_id w p b
              Hp Hacc Href Huniq Hb Hfits)
    as (p' & w' & Hrun & _ & _ & _ & _ & _ & _ & _ & Hbal).
  exists w', (paid_out (amount p) b). split; [exact Hrun |].
  split; [rewrite Hbal; apply lookup_insert_eq |]. simpl.
  split; [reflexivity |]. split; [lia | reflexivity].
Qed.

(** Vendor 1 has 30.00 available; payout 0 is a stored pending payout of
    60.00. *)
Lemma C1_witness :
  exists w' b',
    process_payout Scenario.env 0 0
      (set_vendor_balances {[ 1%nat := Scenario.low_balance ]}
         (Scenario.world_with_payout PayoutStatus.PENDING)) = (Done, w')
    /\ vendor_balances w' !! 1%nat = Some b'
    /\ available_balance b' = -3000
    /\ total_payouts b' = 6000.
Proof.
  destruct (C1_process_payout_overdraws Scenario.env 0 0
              (set_vendor_balances {[ 1%nat := Scenario.low_balance ]}
                 (Scenario.world_with_payout PayoutStatus.PENDING))
              (Scenario.payout PayoutStatus.PENDING) Scenario.low_balance)
    as (w' & b' & Hrun & Hb' & Ha & _ & Ht);
    try reflexivity; try discriminate.
  { apply references_unique_singleton. }
  exists w', b'. auto.
Defined.

(** ** The webhook *)

(** No handler writes to the database. *)
Lemma webhook_handler_world webhook_data w :
  (webhook_handler webhook_data w).2 = w.
Proof.
  unfold webhook_handler, handle_payout_success, handle_payout_failed,
    handle_payout_cancelled, handle_batch_success, handle_batch_denied, lift.
  unfold_monad.
  repeat match goal with
         | |- context [match get ?d ?k ?v with _ => _ end] => destruct (get d k v)
         | |- context [if ?b then _ else _] => destruct b
         | |- context [match first_error_message ?e with _ => _ end] =>
             destruct (first_error_message e)
         end; reflexivity.
Qed.

(** An event whose type is none of the five the handler knows is
    acknowledged as a success. *)
Lemma webhook_unrecognized_acknowledged event_type resource w :
  event_type <> "PAYMENT.PAYOUTS-ITEM.SUCCEEDED" ->
  event_type <> "PAYMENT.PAYOUTS-ITEM.FAILED" ->
  event_type <> "PAYMENT.PAYOUTS-ITEM.CANCELED" ->
  event_type <> "PAYMENT.PAYOUTSBATCH.SUCCEEDED" ->
  event_type <> "PAYMENT.PAYOUTSBATCH.DENIED" ->
  webhook_handler (JObject [("event_type", JString event_type);
                            ("resource", resource)]) w
  = (mkWebhookResult true "Webhook received but not processed", w).
Proof.
  intros H1 H2 H3 H4 H5. unfold webhook_handler, lift. unfold_monad. simpl.
  rewrite !bool_decide_eq_false_2 by assumption. reflexivity.
Qed.

(** C5. A notification that a payout item succeeded is answered with
    [success] and changes nothing: the update of the payout is a comment in
    [_handle_payout_success].  Payout 0, which this notification is about,
    stays [PROCESSING] without [completed_at], and the balance is as
    before. *)
Theorem C5_success_webhook_updates_nothing :
  (forall fields w,
     webhook_handler
       (JObject [("event_type", JString "PAYMENT.PAYOUTS-ITEM.SUCCEEDED");
                 ("resource", JObject fields)]) w
     = (mkWebhookResult true "Payout success processed", w))
  /\ (let r := webhook_handler Scenario.item_succeeded Scenario.world_in_flight in
      r.1 = mkWebhookResult true "Payout success processed"
      /\ status <$> Scenario.payout_0 r = Some PayoutStatus.PROCESSING
      /\ completed_at <$> Scenario.payout_0 r = Some None
      /\ Scenario.balance_1 r = Some (4000, 6000)).
Proof.
  split.
  - intros fields w. reflexivity.
  - vm_compute. repeat split.
Qed.

(** ** The sweep *)

Lemma sweep_rows_app env l1 l2 c w :
  sweep_rows env (l1 ++ l2) c w
  = sweep_rows env l2 (sweep_rows env l1 c w).1 (sweep_rows env l1 c w).2.
Proof.
  unfold sweep_rows. rewrite foldl_app.
  now destruct (foldl _ (c, w) l1).
Qed.

Lemma sweep_rows_cons env row rows c w :
  sweep_rows env (row :: rows) c w
  = sweep_rows env rows (sweep_schedule env row (c, w)).1
      (sweep_schedule env row (c, w)).2.
Proof.
  unfold sweep_rows. simpl. now destruct (sweep_schedule env row (c, w)).
Qed.

Lemma process_scheduled_payouts_rows env w :
  process_scheduled_payouts env w = sweep_rows env (due_schedules env w) 0 w.
Proof. reflexivity. Qed.

(** One turn of the loop.  It creates no payout: with enough balance the
    creation raises and the turn ends there; below the minimum the schedule
    is advanced. *)
Lemma sweep_schedule_turn env schedule_id s balance c w :
  let r := sweep_schedule env (schedule_id, s, balance) (c, w) in
  r.1 = c
  /\ payouts r.2 = payouts w
  /\ vendor_balances r.2 = vendor_balances w
  /\ payout_accounts r.2 = payout_accounts w
  /\ queue r.2 = queue w
  /\ payout_schedules r.2
     = match balance with
       | Some b =>
           if minimum_payout_amount s <=? available_balance b
           then payout_schedules w
           else <[schedule_id := advanced env s]> (payout_schedules w)
       | None => payout_schedules w
       end.
Proof.
  unfold sweep_schedule. destruct balance as [b |]; [| repeat split].
  destruct (minimum_payout_amount s <=? available_balance b); repeat split.
Qed.

(** The loop: no payout, no task, no balance; a schedule that is not among
    the rows is not written. *)
Lemma sweep_rows_tables env rows c w :
  let r := sweep_rows env rows c w in
  r.1 = c
  /\ payouts r.2 = payouts w
  /\ vendor_balances r.2 = vendor_balances w
  /\ payout_accounts r.2 = payout_accounts w
  /\ queue r.2 = queue w
  /\ forall k, k ∉ rows.*1.*1 ->
       payout_schedules r.2 !! k = payout_schedules w !! k.
Proof.
  revert c w. induction rows as [| [[k0 s0] b0] rows IH]; intros c w.
  { repeat split. }
  rewrite sweep_rows_cons.
  destruct (sweep_schedule_turn env k0 s0 b0 c w)
    as (Hc & Hp & Hb & Ha & Hq & Hs).
  destruct (IH (sweep_schedule env (k0, s0, b0) (c, w)).1
               (sweep_schedule env (k0, s0, b0) (c, w)).2)
    as (Hc' & Hp' & Hb' & Ha' & Hq' & Hs').
  split; [congruence |]. split; [congruence |]. split; [congruence |].
  split; [congruence |]. split; [congruence |].
  intros k Hk. rewrite fmap_cons, fmap_cons, not_elem_of_cons in Hk.
  destruct Hk as [Hne Hk]. simpl in Hne.
  rewrite (Hs' k Hk), Hs.
  destruct b0 as [b |]; [| reflexivity].
  destruct (minimum_payout_amount s0 <=? available_balance b); [reflexivity |].
  apply lookup_insert_ne. congruence.
Qed.

(** A due schedule is a row of the queryset, once. *)
Lemma due_schedules_split env w schedule_id s :
  payout_schedules w !! schedule_id = Some s ->
  is_due env s = true ->
  exists l1 l2,
    due_schedules env w
    = l1 ++ (schedule_id, s, vendor_balances w !! ps_vendor s) :: l2
    /\ (schedule_id ∉ l1.*1.*1) /\ (schedule_id ∉ l2.*1.*1).
Proof.
  intros Hs Hdue. unfold due_schedules.
  set (due := filter (fun e => is_due env e.2 = true)
                (map_to_list (payout_schedules w))).
  set (g := fun e : nat * PayoutSchedule =>
              (e.1, e.2, vendor_balances w !! ps_vendor e.2)).
  assert ((schedule_id, s) ∈ due) as Hin.
  { apply list_elem_of_filter. split; [exact Hdue |].
    now apply elem_of_map_to_list. }
  assert (NoDup due.*1) as Hnd.
  { eapply sublist_NoDup; [apply (NoDup_fst_map_to_list (payout_schedules w)) |].
    apply fmap_sublist, sublist_filter. }
  destruct (list_elem_of_split _ _ Hin) as (f1 & f2 & Hsplit).
  rewrite Hsplit in Hnd |- *.
  rewrite fmap_app, fmap_cons in Hnd.
  apply NoDup_app in Hnd as (_ & Hnot1 & Hnd2).
  apply NoDup_cons in Hnd2 as [Hnot2 _].
  assert (forall l : list (nat * PayoutSchedule), (map g l).*1.*1 = l.*1) as Hkeys.
  { intros l. induction l as [| e l IHl]; [reflexivity |].
    csimpl. f_equal. exact IHl. }
  exists (map g f1), (map g f2). rewrite map_app. simpl.
  split; [reflexivity |]. rewrite !Hkeys. split; [| exact Hnot2].
  intros Hk. apply (Hnot1 _ Hk). left.
Qed.

(** The keys of the queryset are the keys of the due schedules. *)
Lemma due_schedules_key env w k :
  k ∈ (due_schedules env w).*1.*1 ->
  exists s, payout_schedules w !! k = Some s /\ is_due env s = true.
Proof.
  intros Hk. apply list_elem_of_fmap in Hk as ([k' s'] & -> & Hk).
  apply list_elem_of_fmap in Hk as ([[k'' s''] b] & [= <- <-] & Hrow).
  unfold due_schedules in Hrow.
  change (map ?f ?l) with (f <$> l) in Hrow.
  apply list_elem_of_fmap in Hrow as ([k0 s0] & [= -> -> _] & He).
  apply list_elem_of_filter in He as [Hdue He].
  apply elem_of_map_to_list in He. eauto.
Qed.

(** What the sweep makes of a due schedule. *)
Lemma sweep_due_schedule env w schedule_id s :
  payout_schedules w !! schedule_id = Some s ->
  is_due env s = true ->
  payout_schedules (process_scheduled_payouts env w).2 !! schedule_id
  = Some match vendor_balances w !! ps_vendor s with
         | Some b =>
             if minimum_payout_amount s <=? available_balance b
             then s else advanced env s
         | None => s
         end.
Proof.
  intros Hs Hdue.
  destruct (due_schedules_split env w schedule_id s Hs Hdue)
    as (l1 & l2 & Hsplit & Hn1 & Hn2).
  rewrite process_scheduled_payouts_rows, Hsplit, sweep_rows_app, sweep_rows_cons.
  destruct (sweep_rows_tables env l1 0 w) as (_ & _ & _ & _ & _ & Hframe1).
  set (st1 := sweep_rows env l1 0 w) in *.
  destruct (sweep_schedule_turn env schedule_id s
              (vendor_balances w !! ps_vendor s) st1.1 st1.2)
    as (_ & _ & _ & _ & _ & Hturn).
  replace (st1.1, st1.2) with st1 in Hturn by now destruct st1.
  replace (sweep_schedule env
             (schedule_id, s, vendor_balances w !! ps_vendor s) (st1.1, st1.2))
    with (sweep_schedule env
            (schedule_id, s, vendor_balances w !! ps_vendor s) st1)
    by now destruct st1.
  set (st2 := sweep_schedule env _ st1) in *.
  destruct (sweep_rows_tables env l2 st2.1 st2.2) as (_ & _ & _ & _ & _ & Hframe2).
  rewrite (Hframe2 _ Hn2), Hturn.
  destruct (vendor_balances w !! ps_vendor s) as [b |];
    [| rewrite (Hframe1 _ Hn1); exact Hs].
  destruct (minimum_payout_amount s <=? available_balance b);
    [rewrite (Hframe1 _ Hn1); exact Hs | apply lookup_insert_eq].
Qed.

(** C8. The sweep creates no payout and sends no task, whatever is due:
    for a vendor with enough balance [Payout.objects.create] raises inside
    the [try] of the loop, the exception is logged, and the turn ends
    before [update_next_payout_date].  So the count is 0, the payout table,
    the broker and the balances are as before, and a due schedule whose
    vendor has at least the minimum available is left as it was, due. *)
Theorem C8_sweep_creates_no_payout env w :
  let r := process_scheduled_payouts env w in
  r.1 = 0%nat
  /\ payouts r.2 = payouts w
  /\ queue r.2 = queue w
  /\ vendor_balances r.2 = vendor_balances w
  /\ forall schedule_id s balance,
       payout_schedules w !! schedule_id = Some s ->
       is_due env s = true ->
       vendor_balances w !! ps_vendor s = Some balance ->
       minimum_payout_amount s <= available_balance balance ->
       payout_schedules r.2 !! schedule_id = Some s.
Proof.
  intros r. subst r. rewrite process_scheduled_payouts_rows.
  destruct (sweep_rows_tables env (due_schedules env w) 0 w)
    as (Hc & Hp & Hb & _ & Hq & _).
  split; [exact Hc |]. split; [exact Hp |]. split; [exact Hq |].
  split; [exact Hb |].
  intros schedule_id s balance Hs Hdue Hbal Hmin.
  rewrite <- process_scheduled_payouts_rows.
  rewrite (sweep_due_schedule env w schedule_id s Hs Hdue), Hbal.
  destruct (Z.leb_spec (minimum_payout_amount s) (available_balance balance));
    [reflexivity | lia].
Qed.

(** Vendor 1 has 100.00 and a primary account; its weekly schedule, from
    50.00 on, is due. *)
Example sweep_of_a_due_schedule :
  let w := Scenario.world_due ScheduleType.WEEKLY in
  let r := process_scheduled_payouts Scenario.env w in
  r.1 = 0%nat /\ payouts r.2 = ∅ /\ queue r.2 = []
  /\ payout_schedules r.2 = payout_schedules w.
Proof. vm_compute. repeat split. Qed.




(** The account the sweep would pay to is an account of the vendor that
    is marked primary. *)
Lemma foldl_newer_in (l : list (nat * PayoutAccount)) x :
  foldl newer x l ∈ x :: l.
Proof.
  revert x. induction l as [| y l IH]; intros x; simpl; [left |].
  specialize (IH (newer x y)). apply elem_of_cons in IH as [-> | IH].
  - unfold newer. destruct (_ <? _); [right; left | left].
  - right. now right.
Qed.

Lemma primary_account_spec vendor w account_id :
  primary_account vendor w = Some account_id ->
  exists account, payout_accounts w !! account_id = Some account
    /\ pa_vendor account = vendor /\ is_primary account = true.
Proof.
  unfold primary_account.
  destruct (filter _ _) as [| x l] eqn:Hfilter; [discriminate |].
  intros [= <-].
  pose proof (foldl_newer_in l x) as Hin. rewrite <- Hfilter in Hin.
  apply list_elem_of_filter in Hin as [[Hv Hp] Hin].
  destruct (foldl newer x l) as [k account]. simpl in *.
  apply elem_of_map_to_list in Hin. eauto.
Qed.

(** ** The balance under the request and the task *)

(** No create request writes a balance. *)
Lemma create_balances env request w r w' :
  PayoutViewSet_create env request w = (r, w') ->
  vendor_balances w' = vendor_balances w.
Proof.
  intros Hcreate.
  now destruct (create_outcome _ _ _ _ _ Hcreate) as [_ [-> | ->]].
Qed.

Lemma self_retry_balances retries t countdown w :
  vendor_balances (self_retry retries t countdown w).2 = vendor_balances w.
Proof. unfold self_retry. now destruct (retries <? 3)%nat. Qed.

Lemma process_payout_failed_balances env retries payout_id e w :
  vendor_balances (process_payout_failed env retries payout_id e w).2
  = vendor_balances w.
Proof.
  unfold process_payout_failed.
  destruct (Payout_objects_get payout_id w) as [p |];
    [| apply self_retry_balances].
  unfold_monad.
  destruct (Payout_save env _ w) as [[p' | e'] w'] eqn:Hsave; simpl.
  - rewrite self_retry_balances. simpl.
    destruct (Payout_save_Ok _ _ _ _ _ Hsave) as [i H].
    apply (saved_balances _ _ _ _ _ _ H).
  - now destruct (Payout_save_Raise _ _ _ _ _ Hsave) as (_ & -> & _).
Qed.

(** What a run of the task does to the balances: nothing, or it moves the
    amount of the payout from available to paid out, whatever is
    available. *)
Lemma process_payout_balances env retries payout_id w :
  let w' := (process_payout env retries payout_id w).2 in
  vendor_balances w' = vendor_balances w
  \/ exists p b,
       payouts w !! payout_id = Some p
       /\ vendor_balances w !! vendor p = Some b
       /\ vendor_balances w' = <[vendor p := paid_out (amount p) b]> (vendor_balances w).
Proof.
  unfold process_payout, Payout_objects_get.
  destruct (payouts w !! payout_id) as [p |] eqn:Hp; simpl;
    [| left; apply self_retry_balances].
  unfold_monad.
  destruct (Payout_save env _ w) as [[p1 | e] w1] eqn:Hsave.
  - destruct (Payout_save_Ok _ _ _ _ _ Hsave) as [i H].
    pose proof (saved_balances _ _ _ _ _ _ H) as Hb1.
    pose proof (saved_vendor _ _ _ _ _ _ H) as Hv1. simpl in Hv1.
    pose proof (saved_amount _ _ _ _ _ _ H) as Ha1. simpl in Ha1.
    unfold vendor_balance, VendorBalance_save. rewrite Hb1, Hv1.
    destruct (vendor_balances w !! vendor p) as [b |] eqn:Hb; simpl.
    + destruct (VendorBalance_fits _); simpl.
      * right. exists p, b. rewrite Ha1, Hb1. auto.
      * left. rewrite process_payout_failed_balances. exact Hb1.
    + left. rewrite process_payout_failed_balances. exact Hb1.
  - left. rewrite process_payout_failed_balances.
    now destruct (Payout_save_Raise _ _ _ _ _ Hsave) as (_ & Hb1 & _).
Qed.

(** The task takes from the available balance exactly what it adds to the
    total paid out, in one write. *)
Lemma process_payout_balances_paired env retries payout_id w :
  balances_paired w (process_payout env retries payout_id w).2.
Proof.
  intros v b0 b' Hb0.
  destruct (process_payout_balances env retries payout_id w)
    as [-> | (p & b & _ & Hb & ->)].
  - rewrite Hb0. now intros [= <-].
  - destruct (decide (v = vendor p)) as [-> | Hne].
    + rewrite lookup_insert_eq. intros [= <-].
      assert (b0 = b) as -> by congruence. simpl. lia.
    + rewrite lookup_insert_ne by congruence. rewrite Hb0. now intros [= <-].
Qed.

(** The sweep writes no balance. *)
Lemma process_scheduled_payouts_balances env w :
  vendor_balances (process_scheduled_payouts env w).2 = vendor_balances w.
Proof.
  rewrite process_scheduled_payouts_rows.
  apply (sweep_rows_tables env (due_schedules env w) 0 w).
Qed.

(** * Further properties *)

(** ** The PayPal request loop *)

Lemma request_attempts_reaches env k response :
  (k < PAYPAL_MAX_RETRIES env)%nat ->
  requests_request env k = Responded response ->
  forall d attempt remaining last,
    k = (attempt + d)%nat -> (d < remaining)%nat ->
    (forall n, (attempt <= n < k)%nat ->
       retryable (requests_request env n) || extraction_fails (requests_request env n)
       = true) ->
    request_attempts env remaining attempt last
    = request_attempts env (remaining - d) k
        (match d with O => last | _ => None end)
    \/ exists last', request_attempts env remaining attempt last
                     = request_attempts env (remaining - d) k last'.
Proof.
  intros Hk Hresp d. induction d as [| d IH]; intros attempt remaining last -> Hd Hretry.
  - left. now rewrite Nat.add_0_r, Nat.sub_0_r.
  - right. destruct remaining as [| remaining]; [lia |].
    assert (retryable (requests_request env attempt)
            || extraction_fails (requests_request env attempt) = true) as Hr
      by (apply Hretry; lia).
    assert (forall last0, exists last',
              request_attempts env remaining (S attempt) last0
              = request_attempts env (remaining - d) (attempt + S d) last') as Hrest.
    { intros last0.
      destruct (IH (S attempt) remaining last0) as [Heq | [last' Heq]];
        [lia | lia | intros n Hn; apply Hretry; lia | |].
      - eexists. rewrite Heq. reflexivity.
      - exists last'. exact Heq. }
    cbn [request_attempts]. rewrite Nat.sub_succ.
    destruct (requests_request env attempt) as [r | m | m | m]; simpl in Hr.
    + apply orb_prop in Hr as [Hr | Hr].
      * apply Z.eqb_eq in Hr. rewrite Hr.
        replace (401 <? 400) with false by reflexivity.
        replace (401 =? 401) with true by reflexivity.
        replace (Z.of_nat attempt <? Z.of_nat (PAYPAL_MAX_RETRIES env) - 1)
          with true by (symmetry; apply Z.ltb_lt; lia).
        simpl. apply Hrest.
      * apply andb_prop in Hr as [Hr Herr]. apply andb_prop in Hr as [Hcode Hne].
        apply Z.leb_le in Hcode. apply negb_true_iff in Hne. rewrite Hne.
        destruct (Z.ltb_spec (status_code r) 400); [lia |]. simpl.
        destruct (error_message r); [discriminate | apply Hrest].
    + apply Hrest.
    + apply Hrest.
    + apply Hrest.
Qed.

(** X1. Timeouts, connection errors, other exceptions and 401 answers are
    retried: when they are followed, within [PAYPAL_MAX_RETRIES] attempts,
    by a response with a status below 400, the request returns that
    response. *)
Theorem X1_request_recovers_within_budget env token k response :
  paypal_access_token env = Ok token ->
  (k < PAYPAL_MAX_RETRIES env)%nat ->
  (forall n, (n < k)%nat -> retryable (requests_request env n) = true) ->
  requests_request env k = Responded response ->
  status_code response < 400 ->
  make_paypal_request env = Ok response.
Proof.
  intros Htoken Hk Hretry Hresp Hcode.
  unfold make_paypal_request. rewrite Htoken.
  assert (exists last', request_attempts env (PAYPAL_MAX_RETRIES env) 0 None
            = request_attempts env (PAYPAL_MAX_RETRIES env - k) k last')
    as [last' ->].
  { destruct (request_attempts_reaches env k response Hk Hresp k 0%nat
                (PAYPAL_MAX_RETRIES env) None) as [Heq | Hex];
      [reflexivity | exact Hk
      | intros n Hn; rewrite Hretry by lia; reflexivity | | exact Hex].
    eexists. exact Heq. }
  destruct (PAYPAL_MAX_RETRIES env - k)%nat as [| remaining] eqn:Hrem; [lia |].
  cbn [request_attempts]. rewrite Hresp.
  destruct (Z.ltb_spec (status_code response) 400); [reflexivity | lia].
Qed.

(** Two timeouts, then the batch is accepted. *)
Lemma X1_witness :
  make_paypal_request Cases.env_paypal_recovers = Ok Cases.accepted.
Proof.
  apply (X1_request_recovers_within_budget Cases.env_paypal_recovers "token" 2).
  - reflexivity.
  - simpl. lia.
  - intros [| [| n]] Hn; [reflexivity | reflexivity | lia].
  - reflexivity.
  - simpl. lia.
Defined.

(** X2. A response with status 400 or above other than 401 from which
    an error message can be extracted ends the request at once with a
    [PayPalError], also a 429 or a 5xx, and also when a later attempt would
    have succeeded. *)
Theorem X2_request_error_status_not_retried env token k response text :
  paypal_access_token env = Ok token ->
  (k < PAYPAL_MAX_RETRIES env)%nat ->
  (forall n, (n < k)%nat -> retryable (requests_request env n) = true) ->
  requests_request env k = Responded response ->
  400 <= status_code response ->
  status_code response <> 401 ->
  error_message response = Ok text ->
  exists message, make_paypal_request env = Raise (PayPalError message).
Proof.
  intros Htoken Hk Hretry Hresp Hcode Hne Htext.
  unfold make_paypal_request. rewrite Htoken.
  assert (exists last', request_attempts env (PAYPAL_MAX_RETRIES env) 0 None
            = request_attempts env (PAYPAL_MAX_RETRIES env - k) k last')
    as [last' ->].
  { destruct (request_attempts_reaches env k response Hk Hresp k 0%nat
                (PAYPAL_MAX_RETRIES env) None) as [Heq | Hex];
      [reflexivity | exact Hk
      | intros n Hn; rewrite Hretry by lia; reflexivity | | exact Hex].
    eexists. exact Heq. }
  destruct (PAYPAL_MAX_RETRIES env - k)%nat as [| remaining] eqn:Hrem; [lia |].
  cbn [request_attempts]. rewrite Hresp, Htext.
  destruct (Z.ltb_spec (status_code response) 400); [lia |].
  destruct (Z.eqb_spec (status_code response) 401); [contradiction |].
  simpl. eauto.
Qed.

(** A 503 at the first attempt; the second attempt would have succeeded. *)
Lemma X2_witness :
  requests_request Cases.env_paypal_unavailable_once 1 = Responded Cases.accepted
  /\ exists message,
       make_paypal_request Cases.env_paypal_unavailable_once
       = Raise (PayPalError message).
Proof.
  split; [reflexivity |].
  apply (X2_request_error_status_not_retried Cases.env_paypal_unavailable_once
           "token" 0 Cases.unavailable "Service Unavailable").
  - reflexivity.
  - simpl. lia.
  - intros n Hn. lia.
  - reflexivity.
  - simpl. lia.
  - discriminate.
  - reflexivity.
Defined.

Lemma request_attempts_agree env env' remaining attempt last :
  PAYPAL_MAX_RETRIES env' = PAYPAL_MAX_RETRIES env ->
  (forall n, (attempt <= n < attempt + remaining)%nat ->
     requests_request env' n = requests_request env n) ->
  request_attempts env' remaining attempt last
  = request_attempts env remaining attempt last.
Proof.
  intros Hmax. revert attempt last.
  induction remaining as [| remaining IH]; intros attempt last Hagree.
  - simpl. now rewrite Hmax.
  - cbn [request_attempts]. rewrite Hmax, (Hagree attempt) by lia.
    assert (forall last0, request_attempts env' remaining (S attempt) last0
                          = request_attempts env remaining (S attempt) last0)
      as Hrest by (intros last0; apply IH; intros n Hn; apply Hagree; lia).
    destruct (requests_request env attempt) as [r | m | m | m];
      rewrite ?Hrest; try reflexivity.
    destruct (error_message r); now rewrite ?Hrest.
Qed.

(** X3. The request makes at most [PAYPAL_MAX_RETRIES] attempts: what it
    returns or raises does not depend on what a later attempt would be
    answered. *)
Theorem X3_request_makes_at_most_max_attempts env env' :
  PAYPAL_MAX_RETRIES env' = PAYPAL_MAX_RETRIES env ->
  paypal_access_token env' = paypal_access_token env ->
  (forall n, (n < PAYPAL_MAX_RETRIES env)%nat ->
     requests_request env' n = requests_request env n) ->
  make_paypal_request env' = make_paypal_request env.
Proof.
  intros Hmax Htoken Hagree. unfold make_paypal_request.
  rewrite Htoken, Hmax.
  destruct (paypal_access_token env); [| reflexivity].
  apply request_attempts_agree; [exact Hmax |].
  intros n Hn. apply Hagree. lia.
Qed.

(** Three timeouts: that the fourth attempt would be accepted changes
    nothing. *)
Lemma X3_witness :
  requests_request Cases.env_paypal_recovers_late 3 = Responded Cases.accepted
  /\ make_paypal_request Cases.env_paypal_recovers_late
     = make_paypal_request Scenario.env.
Proof.
  split; [reflexivity |].
  apply (X3_request_makes_at_most_max_attempts Scenario.env
           Cases.env_paypal_recovers_late).
  - reflexivity.
  - reflexivity.
  - intros [| [| [| n]]] Hn; try reflexivity. simpl in Hn. lia.
Defined.

(** X22. An error response is not always final: when
    [_extract_error_message] raises on a response with a status of 400 or
    above other than 401, the exception is no [PayPalError], the loop
    treats the attempt like one that got no answer, and the next attempt is
    made.  So a request whose first attempts end like this, or in a
    timeout, a connection error or a 401, and whose next attempt within
    [PAYPAL_MAX_RETRIES] gets a status below 400 returns that response. *)
Theorem X22_unreadable_error_is_retried env token k response :
  paypal_access_token env = Ok token ->
  (k < PAYPAL_MAX_RETRIES env)%nat ->
  (forall n, (n < k)%nat ->
     retryable (requests_request env n) || extraction_fails (requests_request env n)
     = true) ->
  requests_request env k = Responded response ->
  status_code response < 400 ->
  make_paypal_request env = Ok response.
Proof.
  intros Htoken Hk Hretry Hresp Hcode.
  unfold make_paypal_request. rewrite Htoken.
  assert (exists last', request_attempts env (PAYPAL_MAX_RETRIES env) 0 None
            = request_attempts env (PAYPAL_MAX_RETRIES env - k) k last')
    as [last' ->].
  { destruct (request_attempts_reaches env k response Hk Hresp k 0%nat
                (PAYPAL_MAX_RETRIES env) None) as [Heq | Hex];
      [reflexivity | exact Hk | intros n Hn; apply Hretry; lia | | exact Hex].
    eexists. exact Heq. }
  destruct (PAYPAL_MAX_RETRIES env - k)%nat as [| remaining] eqn:Hrem; [lia |].
  cbn [request_attempts]. rewrite Hresp.
  destruct (Z.ltb_spec (status_code response) 400); [reflexivity | lia].
Qed.

(** A 500 with the body [null], then the batch is accepted. *)
Lemma X22_witness :
  extraction_fails (requests_request Cases.env_paypal_unreadable_once 0) = true
  /\ make_paypal_request Cases.env_paypal_unreadable_once = Ok Cases.accepted.
Proof.
  split; [reflexivity |].
  apply (X22_unreadable_error_is_retried Cases.env_paypal_unreadable_once
           "token" 1).
  - reflexivity.
  - simpl. lia.
  - intros [| n] Hn; [reflexivity | lia].
  - reflexivity.
  - simpl. lia.
Defined.

(** ** The retry sweep: what it touches *)

Lemma retry_failed_payouts_loop env w :
  retry_failed_payouts env w
  = for_each (retry_payout env)
      (filter (fun e => status e.2 = PayoutStatus.FAILED /\ (retry_count e.2 < 3)%nat)
         (map_to_list (payouts w))) w.
Proof. reflexivity. Qed.

(** One turn of the loop writes the row it was given, or nothing. *)
Lemma retry_payout_row env e w r w' :
  retry_payout env e w = (r, w') ->
  vendor_balances w' = vendor_balances w
  /\ payout_schedules w' = payout_schedules w
  /\ payout_accounts w' = payout_accounts w
  /\ match r with
     | Ok _ => exists p', payouts w' = <[e.1 := p']> (payouts w)
                          /\ retried e.2 p'
                          /\ reference_number p'
                             = (if decide (reference_number e.2 = "")
                                then generate_reference (uuid4 env (uuid_calls w))
                                else reference_number e.2)
                          /\ queue w' = queue w ++ [process_payout_task e.1]
     | Raise _ => payouts w' = payouts w /\ queue w' = queue w
     end.
Proof.
  unfold retry_payout. unfold_monad.
  destruct (Payout_save env _ w) as [[p' | x] w1] eqn:Hsave.
  - destruct (Payout_save_Ok _ _ _ _ _ Hsave) as [i H].
    pose proof (saved_key _ _ _ _ _ _ H) as Hkey. simpl in Hkey. subst i.
    unfold delay. intros [= <- <-]. simpl.
    split; [apply (saved_balances _ _ _ _ _ _ H) |].
    split; [apply (saved_schedules _ _ _ _ _ _ H) |].
    split; [apply (saved_accounts _ _ _ _ _ _ H) |].
    exists p'. split; [apply (saved_payouts _ _ _ _ _ _ H) |].
    split.
    { destruct (saved_payout_account _ _ _ _ _ _ H) as [Hpa _].
      repeat split.
      - apply (saved_status _ _ _ _ _ _ H).
      - apply (saved_retry_count _ _ _ _ _ _ H).
      - apply (saved_amount _ _ _ _ _ _ H).
      - apply (saved_vendor _ _ _ _ _ _ H).
      - exact Hpa.
      - apply (saved_failure_reason _ _ _ _ _ _ H). }
    split; [apply (saved_reference_number _ _ _ _ _ _ H) |].
    now rewrite (saved_queue _ _ _ _ _ _ H).
  - intros [= <- <-].
    destruct (Payout_save_Raise _ _ _ _ _ Hsave) as (Hp & Hb & Hs & Ha & Hq).
    auto.
Qed.

(** The loop over rows of the table with distinct keys: a row outside the
    list is untouched, a row of the list is untouched or retried, and no
    row appears. *)
Lemma retry_loop_rows env (l : list (nat * Payout)) w r w' :
  for_each (retry_payout env) l w = (r, w') ->
  NoDup l.*1 ->
  (forall e, e ∈ l -> payouts w !! e.1 = Some e.2) ->
  vendor_balances w' = vendor_balances w
  /\ payout_schedules w' = payout_schedules w
  /\ payout_accounts w' = payout_accounts w
  /\ (forall j, j ∉ l.*1 -> payouts w' !! j = payouts w !! j)
  /\ (forall e, e ∈ l ->
        payouts w' !! e.1 = Some e.2
        \/ exists p', payouts w' !! e.1 = Some p' /\ retried e.2 p').
Proof.
  revert w. induction l as [| e l IH]; intros w Hloop Hnd Hrows.
  - simpl in Hloop. unfold_monad. injection Hloop as <- <-.
    repeat split; auto; intros e He; inversion He.
  - apply NoDup_cons in Hnd as [Hnot Hnd].
    simpl in Hloop. unfold bind in Hloop.
    destruct (retry_payout env e w) as [[[] | x] w1] eqn:Hturn.
    + destruct (retry_payout_row _ _ _ _ _ Hturn)
        as (Hb1 & Hs1 & Ha1 & p' & Ht1 & Hretried & _ & _).
      destruct (IH w1 Hloop Hnd) as (Hb & Hs & Ha & Hframe & Hl).
      { intros e' He'. rewrite Ht1, lookup_insert_ne; [apply Hrows; now right |].
        intros Heq. apply Hnot. rewrite Heq. now apply list_elem_of_fmap_2. }
      split; [congruence |]. split; [congruence |]. split; [congruence |].
      split.
      * intros j Hj. rewrite fmap_cons, not_elem_of_cons in Hj.
        destruct Hj as [Hne Hj]. rewrite (Hframe j Hj), Ht1.
        apply lookup_insert_ne. auto.
      * intros e' He'. apply elem_of_cons in He' as [-> | He'].
        -- right. exists p'. split; [| exact Hretried].
           rewrite (Hframe e.1 Hnot), Ht1. apply lookup_insert_eq.
        -- apply Hl, He'.
    + injection Hloop as <- <-.
      destruct (retry_payout_row _ _ _ _ _ Hturn) as (Hb1 & Hs1 & Ha1 & Ht1 & _).
      split; [exact Hb1 |]. split; [exact Hs1 |]. split; [exact Ha1 |].
      split; [intros j _; now rewrite Ht1 |].
      intros e' He'. left. rewrite Ht1. now apply Hrows.
Qed.

(** X7. [retry_failed_payouts] touches nothing but the payouts it selects:
    whatever it returns, the balances, schedules and accounts are as
    before, no payout has appeared, a payout that is not failed or has
    three retries already is as before, and any other payout is as before
    or pending with one more retry counted.  So no payout gets beyond three
    retries this way. *)
Theorem X7_retry_touches_only_eligible env w :
  let w' := (retry_failed_payouts env w).2 in
  vendor_balances w' = vendor_balances w
  /\ payout_schedules w' = payout_schedules w
  /\ payout_accounts w' = payout_accounts w
  /\ (forall j, payouts w !! j = None -> payouts w' !! j = None)
  /\ (forall j p, payouts w !! j = Some p -> ~ eligible_for_retry p ->
        payouts w' !! j = Some p)
  /\ (forall j p, payouts w !! j = Some p -> eligible_for_retry p ->
        payouts w' !! j = Some p
        \/ exists p', payouts w' !! j = Some p' /\ retried p p')
  /\ ((forall j p, payouts w !! j = Some p -> (retry_count p <= 3)%nat) ->
      forall j p', payouts w' !! j = Some p' -> (retry_count p' <= 3)%nat).
Proof.
  intros w'. subst w'. rewrite retry_failed_payouts_loop.
  set (l := filter _ (map_to_list (payouts w))).
  destruct (for_each (retry_payout env) l w) as [r w'] eqn:Hloop. simpl.
  assert (NoDup l.*1) as Hnd.
  { eapply sublist_NoDup; [apply (NoDup_fst_map_to_list (payouts w)) |].
    apply fmap_sublist, sublist_filter. }
  assert (forall e, e ∈ l <-> payouts w !! e.1 = Some e.2 /\ eligible_for_retry e.2)
    as Hl.
  { intros [j p]. unfold l. rewrite list_elem_of_filter, elem_of_map_to_list.
    simpl. unfold eligible_for_retry. tauto. }
  destruct (retry_loop_rows env l w r w' Hloop Hnd)
    as (Hb & Hs & Ha & Hframe & Hrows); [intros e He; now apply Hl |].
  assert (forall j, j ∈ l.*1 -> exists p, (j, p) ∈ l) as Hkeys.
  { intros j Hj. apply list_elem_of_fmap in Hj as ([j' p] & -> & He). eauto. }
  assert (forall j p, payouts w !! j = Some p -> ~ eligible_for_retry p ->
            payouts w' !! j = Some p) as Hother.
  { intros j p Hp Hnot. rewrite Hframe; [exact Hp |].
    intros Hj. destruct (Hkeys j Hj) as [q Hq]. apply Hl in Hq as [Hq Helig].
    simpl in *. assert (q = p) by congruence. subst q. contradiction. }
  assert (forall j p, payouts w !! j = Some p -> eligible_for_retry p ->
            payouts w' !! j = Some p
            \/ exists p', payouts w' !! j = Some p' /\ retried p p') as Helig.
  { intros j p Hp He. apply (Hrows (j, p)). apply Hl. auto. }
  split; [exact Hb |]. split; [exact Hs |]. split; [exact Ha |].
  split.
  { intros j Hj. rewrite Hframe; [exact Hj |].
    intros Hin. destruct (Hkeys j Hin) as [q Hq]. apply Hl in Hq as [Hq _].
    simpl in Hq. congruence. }
  split; [exact Hother |]. split; [exact Helig |].
  intros Hbound j p' Hp'.
  destruct (payouts w !! j) as [p |] eqn:Hp.
  - destruct (decide (status p = PayoutStatus.FAILED)) as [Hst |];
      [destruct (decide (retry_count p < 3)%nat) as [Hlt |] |].
    + destruct (Helig j p Hp (conj Hst Hlt)) as [Hsame | (q & Hq & Hret)].
      * assert (p' = p) by congruence. subst. eauto.
      * assert (p' = q) by congruence. subst.
        destruct Hret as (_ & -> & _). lia.
    + rewrite (Hother j p Hp) in Hp' by (unfold eligible_for_retry; tauto).
      injection Hp' as <-. eauto.
    + rewrite (Hother j p Hp) in Hp' by (unfold eligible_for_retry; tauto).
      injection Hp' as <-. eauto.
  - rewrite Hframe in Hp'; [congruence |].
    intros Hin. destruct (Hkeys j Hin) as [q Hq]. apply Hl in Hq as [Hq _].
    simpl in Hq. congruence.
Qed.






(** ** What every entry point keeps *)

Lemma same_request_refl p : same_request p p.
Proof. repeat split. Qed.

Lemma same_request_trans p q r :
  same_request p q -> same_request q r -> same_request p r.
Proof.
  intros (? & ? & ? & ? & ? & ?) (? & ? & ? & ? & ? & ?).
  repeat split; congruence.
Qed.

Lemma rows_kept_refl t : rows_kept t t.
Proof. intros j p Hp. exists p. split; [exact Hp | apply same_request_refl]. Qed.

Lemma rows_kept_trans t1 t2 t3 :
  rows_kept t1 t2 -> rows_kept t2 t3 -> rows_kept t1 t3.
Proof.
  intros H12 H23 j p Hp.
  destruct (H12 j p Hp) as (p2 & Hp2 & Hs2).
  destruct (H23 j p2 Hp2) as (p3 & Hp3 & Hs3).
  exists p3. split; [exact Hp3 | eapply same_request_trans; eauto].
Qed.

Lemma rows_kept_eq t t' : t' = t -> rows_kept t t'.
Proof. intros ->. apply rows_kept_refl. Qed.

(** One [save]: the table stays as the database keeps it, and a row that
    is written over keeps its request when the instance has it. *)
Lemma Payout_save_evolves env self w r w' :
  Payout_save env self w = (r, w') ->
  (forall i q, id self = Some i -> payouts w !! i = Some q -> same_request q self) ->
  table_ok (payouts w) ->
  table_ok (payouts w') /\ rows_kept (payouts w) (payouts w').
Proof.
  intros Hsave Hself (Huniq & Hnet & Hcomplete).
  destruct r as [self' | e].
  2:{ destruct (Payout_save_Raise _ _ _ _ _ Hsave) as (-> & _).
      split; [exact (conj Huniq (conj Hnet Hcomplete)) | apply rows_kept_refl]. }
  destruct (Payout_save_Ok _ _ _ _ _ Hsave) as [i H]. split.
  - split; [eapply references_unique_saved; eauto |].
    split; [eapply Payout_save_net_amounts; eauto |].
    intros j p. destruct (decide (j = i)) as [-> | Hne].
    + rewrite (saved_lookup _ _ _ _ _ _ H). intros [= <-]. split.
      * destruct (saved_payout_account _ _ _ _ _ _ H) as [-> Hacc]. exact Hacc.
      * eapply saved_reference_not_empty; eauto.
    + rewrite (saved_lookup_ne _ _ _ _ _ _ _ H Hne). apply Hcomplete.
  - intros j p Hp. destruct (decide (j = i)) as [-> | Hne].
    2:{ exists p. rewrite (saved_lookup_ne _ _ _ _ _ _ _ H Hne).
        split; [exact Hp | apply same_request_refl]. }
    exists self'. split; [eapply saved_lookup; eauto |].
    pose proof (saved_key _ _ _ _ _ _ H) as Hkey.
    destruct (id self) as [k |] eqn:Hid; [subst k | congruence].
    destruct (Hself i p eq_refl Hp) as (Hv & Ha & Hc & Hf & Hacc & Href).
    destruct (Hcomplete i p Hp) as [_ Hne].
    destruct (saved_fees _ _ _ _ _ _ H) as [Hc' Hf'].
    destruct (saved_payout_account _ _ _ _ _ _ H) as [Hacc' _].
    pose proof (saved_reference_number _ _ _ _ _ _ H) as Href'.
    rewrite decide_False in Href' by congruence.
    pose proof (saved_amount _ _ _ _ _ _ H). pose proof (saved_vendor _ _ _ _ _ _ H).
    repeat split; congruence.
Qed.

Lemma create_evolves env request w :
  table_ok (payouts w) ->
  let w' := (PayoutViewSet_create env request w).2 in
  table_ok (payouts w') /\ rows_kept (payouts w) (payouts w').
Proof.
  intros Hok.
  destruct (PayoutViewSet_create env request w) as [r w'] eqn:Hcreate.
  destruct (create_outcome _ _ _ _ _ Hcreate) as [_ [-> | ->]];
    (split; [exact Hok | apply rows_kept_refl]).
Qed.

Lemma self_retry_payouts retries t countdown w :
  payouts (self_retry retries t countdown w).2 = payouts w.
Proof. unfold self_retry. now destruct (retries <? 3)%nat. Qed.

(** A [save] of the row read under [payout_id], changed in fields that
    are not of the request. *)
Lemma save_read_row_evolves env payout_id q self w r w' :
  Payout_save env self w = (r, w') ->
  payouts w !! payout_id = Some q ->
  id self = Some payout_id -> same_request q self ->
  table_ok (payouts w) ->
  table_ok (payouts w') /\ rows_kept (payouts w) (payouts w').
Proof.
  intros Hsave Hq Hid Hsame. eapply Payout_save_evolves; [exact Hsave |].
  rewrite Hid. intros j q' [= <-] Hq'. congruence.
Qed.

Lemma process_payout_failed_evolves env retries payout_id e w :
  table_ok (payouts w) ->
  let w' := (process_payout_failed env retries payout_id e w).2 in
  table_ok (payouts w') /\ rows_kept (payouts w) (payouts w').
Proof.
  intros Hok. unfold process_payout_failed, Payout_objects_get.
  destruct (payouts w !! payout_id) as [q |] eqn:Hq; simpl.
  2:{ rewrite self_retry_payouts. split; [exact Hok | apply rows_kept_refl]. }
  unfold_monad.
  destruct (Payout_save env _ w) as [[p1 | e1] w1] eqn:Hsave;
    destruct (save_read_row_evolves _ _ _ _ _ _ _ Hsave Hq eq_refl
                ltac:(repeat split) Hok) as [Hok1 Hkept1]; simpl; auto.
  rewrite self_retry_payouts. auto.
Qed.

Lemma process_payout_evolves env retries payout_id w :
  table_ok (payouts w) ->
  let w' := (process_payout env retries payout_id w).2 in
  table_ok (payouts w') /\ rows_kept (payouts w) (payouts w').
Proof.
  intros Hok. unfold process_payout, Payout_objects_get.
  destruct (payouts w !! payout_id) as [q |] eqn:Hq; simpl.
  2:{ rewrite self_retry_payouts. split; [exact Hok | apply rows_kept_refl]. }
  unfold_monad.
  destruct (Payout_save env _ w) as [[p1 | e1] w1] eqn:Hsave;
    destruct (save_read_row_evolves _ _ _ _ _ _ _ Hsave Hq eq_refl
                ltac:(repeat split) Hok) as [Hok1 Hkept1].
  - assert (forall e,
              table_ok (payouts (process_payout_failed env retries payout_id e w1).2)
              /\ rows_kept (payouts w)
                   (payouts (process_payout_failed env retries payout_id e w1).2))
      as Hfailed.
    { intros e.
      destruct (process_payout_failed_evolves env retries payout_id e w1 Hok1)
        as [Hok2 Hkept2].
      split; [exact Hok2 | eapply rows_kept_trans; eauto]. }
    unfold vendor_balance, VendorBalance_save, delay.
    destruct (vendor_balances w1 !! vendor p1) as [b |]; simpl; [| apply Hfailed].
    destruct (VendorBalance_fits _); simpl; [auto | apply Hfailed].
  - destruct (process_payout_failed_evolves env retries payout_id e1 w1 Hok1)
      as [Hok2 Hkept2].
    split; [exact Hok2 | eapply rows_kept_trans; eauto].
Qed.

Lemma retry_loop_evolves env (l : list (nat * Payout)) t0 w :
  (forall e, e ∈ l -> t0 !! e.1 = Some e.2) ->
  rows_kept t0 (payouts w) ->
  table_ok (payouts w) ->
  let w' := (for_each (retry_payout env) l w).2 in
  table_ok (payouts w') /\ rows_kept (payouts w) (payouts w').
Proof.
  revert w. induction l as [| e l IH]; intros w Hrows Hkept Hok; simpl.
  { split; [exact Hok | apply rows_kept_refl]. }
  unfold bind at 1.
  destruct (retry_payout env e w) as [[u | x] w1] eqn:Hturn.
  - revert Hturn. unfold retry_payout. unfold_monad.
    destruct (Payout_save env _ w) as [[p1 | e1] w0] eqn:Hsave; [| discriminate].
    unfold delay. intros [= <- <-].
    destruct (Hkept e.1 e.2) as (q & Hq & Hsame); [apply Hrows; left |].
    destruct (save_read_row_evolves _ _ _ _ _ _ _ Hsave Hq eq_refl
                ltac:(repeat split; symmetry; apply Hsame) Hok)
      as [Hok1 Hkept1].
    destruct (IH (mkWorld (payout_accounts w0) (payouts w0) (payout_schedules w0)
                    (vendor_balances w0) (uuid_calls w0)
                    (queue w0 ++ [process_payout_task e.1])))
      as [Hok2 Hkept2]; simpl; auto.
    + intros e' He'. apply Hrows. now right.
    + eapply rows_kept_trans; eauto.
    + split; [exact Hok2 | eapply rows_kept_trans; eauto].
  - simpl. revert Hturn. unfold retry_payout. unfold_monad.
    destruct (Payout_save env _ w) as [[p1 | e1] w0] eqn:Hsave; [discriminate |].
    intros [= _ <-]. simpl.
    destruct (Payout_save_Raise _ _ _ _ _ Hsave) as (-> & _).
    split; [exact Hok | apply rows_kept_refl].
Qed.

Lemma retry_failed_payouts_evolves env w :
  table_ok (payouts w) ->
  let w' := (retry_failed_payouts env w).2 in
  table_ok (payouts w') /\ rows_kept (payouts w) (payouts w').
Proof.
  intros Hok. rewrite retry_failed_payouts_loop.
  apply (retry_loop_evolves env _ (payouts w)); [| apply rows_kept_refl | exact Hok].
  intros [j p] He. apply list_elem_of_filter in He as [_ He].
  now apply elem_of_map_to_list in He.
Qed.

Lemma sweep_schedule_evolves env row c w :
  table_ok (payouts w) ->
  let w' := (sweep_schedule env row (c, w)).2 in
  table_ok (payouts w') /\ rows_kept (payouts w) (payouts w').
Proof.
  intros Hok w'. subst w'. destruct row as [[schedule_id s] balance].
  destruct (sweep_schedule_turn env schedule_id s balance c w) as (_ & Hp & _).
  rewrite Hp. split; [exact Hok | apply rows_kept_refl].
Qed.

Lemma sweep_rows_evolves env rows c w :
  table_ok (payouts w) ->
  let w' := (sweep_rows env rows c w).2 in
  table_ok (payouts w') /\ rows_kept (payouts w) (payouts w').
Proof.
  revert c w. induction rows as [| row rows IH]; intros c w Hok.
  { split; [exact Hok | apply rows_kept_refl]. }
  rewrite sweep_rows_cons.
  destruct (sweep_schedule_evolves env row c w Hok) as [Hok1 Hkept1].
  destruct (IH (sweep_schedule env row (c, w)).1 (sweep_schedule env row (c, w)).2 Hok1)
    as [Hok2 Hkept2].
  split; [exact Hok2 | eapply rows_kept_trans; eauto].
Qed.

(** Each entry point keeps the table as the database keeps it, and keeps
    every row for its request. *)
Lemma handle_evolves env e w :
  table_ok (payouts w) ->
  table_ok (payouts (handle env e w))
  /\ rows_kept (payouts w) (payouts (handle env e w)).
Proof.
  intros Hok. destruct e as [request | retries payout_id | | | webhook_data]; simpl.
  - now apply create_evolves.
  - now apply process_payout_evolves.
  - now apply retry_failed_payouts_evolves.
  - rewrite process_scheduled_payouts_rows. now apply sweep_rows_evolves.
  - rewrite webhook_handler_world. split; [exact Hok | apply rows_kept_refl].
Qed.

Lemma history_evolves events w :
  table_ok (payouts w) ->
  table_ok (payouts (history events w))
  /\ rows_kept (payouts w) (payouts (history events w)).
Proof.
  revert w. induction events as [| [env e] events IH]; intros w Hok.
  { split; [exact Hok | apply rows_kept_refl]. }
  destruct (handle_evolves env e w Hok) as [Hok1 Hkept1].
  destruct (IH _ Hok1) as [Hok2 Hkept2].
  split; [exact Hok2 | eapply rows_kept_trans; eauto].
Qed.

(** X9. Whatever runs against the tables, in whatever order (create
    requests, runs of the three tasks, webhooks, each at its own time and
    with its own answers from Stripe and PayPal), the payout table stays as
    [save] and the database keep it: no two rows share a reference number,
    every net amount is the amount less the two fees, every row has a
    payout account and a reference number. *)
Theorem X9_every_history_keeps_the_payout_table events w :
  references_unique (payouts w) ->
  net_amounts_derived (payouts w) ->
  stored_complete (payouts w) ->
  let w' := history events w in
  references_unique (payouts w')
  /\ net_amounts_derived (payouts w')
  /\ stored_complete (payouts w').
Proof.
  intros Huniq Hnet Hcomplete.
  destruct (history_evolves events w (conj Huniq (conj Hnet Hcomplete)))
    as [Hok _].
  exact Hok.
Qed.

Lemma table_ok_singleton k (p : Payout) :
  net_amount p = Some (amount p - commission_fee p - processing_fee p) ->
  payout_account p <> None -> reference_number p <> "" ->
  table_ok ({[ k := p ]} : gmap nat Payout).
Proof.
  intros Hnet Hacc Href. split; [apply references_unique_singleton |].
  split; intros i q Hq; apply lookup_singleton_Some in Hq as [_ <-]; auto.
Qed.

(** The payout that failed is retried, its task runs, and the vendor asks
    for another 30.00. *)
Lemma X9_witness :
  let w' := history [(Scenario.env, RetryFailedPayouts);
                     (Scenario.env, ProcessPayout 0 0);
                     (Scenario.env, Create (Scenario.request 3000))]
              (Scenario.world_with_payout PayoutStatus.FAILED) in
  references_unique (payouts w')
  /\ net_amounts_derived (payouts w')
  /\ stored_complete (payouts w').
Proof.
  apply X9_every_history_keeps_the_payout_table;
    apply (table_ok_singleton 0 (Scenario.payout PayoutStatus.FAILED));
    simpl; first [reflexivity | discriminate].
Defined.



(** ** Balances *)

Lemma paid_out_0 b : paid_out 0 b = b.
Proof.
  destruct b. unfold paid_out, set_balance. simpl.
  now rewrite Z.sub_0_r, Z.add_0_r.
Qed.

Lemma balances_moved_eq w w' :
  vendor_balances w' = vendor_balances w -> balances_moved w w'.
Proof.
  intros Heq v. exists 0. rewrite Heq.
  destruct (vendor_balances w !! v) as [b |]; simpl; [| reflexivity].
  now rewrite paid_out_0.
Qed.

Lemma balances_moved_insert w w' v b a :
  vendor_balances w !! v = Some b ->
  vendor_balances w' = <[v := paid_out a b]> (vendor_balances w) ->
  balances_moved w w'.
Proof.
  intros Hb Heq v'. rewrite Heq. destruct (decide (v' = v)) as [-> | Hne].
  - exists a. now rewrite lookup_insert_eq, Hb.
  - exists 0. rewrite lookup_insert_ne by congruence.
    destruct (vendor_balances w !! v') as [b' |]; simpl; [| reflexivity].
    now rewrite paid_out_0.
Qed.

Lemma balances_moved_trans w1 w2 w3 :
  balances_moved w1 w2 -> balances_moved w2 w3 -> balances_moved w1 w3.
Proof.
  intros H12 H23 v. destruct (H12 v) as [a1 H1]. destruct (H23 v) as [a2 H2].
  exists (a1 + a2). rewrite H2, H1.
  destruct (vendor_balances w1 !! v) as [b |]; simpl; [| reflexivity].
  now rewrite paid_out_again.
Qed.

Lemma retry_loop_balances env (l : list (nat * Payout)) w :
  vendor_balances (for_each (retry_payout env) l w).2 = vendor_balances w.
Proof.
  revert w. induction l as [| e l IH]; intros w; [reflexivity |].
  simpl. unfold bind.
  destruct (retry_payout env e w) as [[u | x] w1] eqn:Hturn;
    destruct (retry_payout_row _ _ _ _ _ Hturn) as (Hb & _); simpl;
    [rewrite IH |]; exact Hb.
Qed.

Lemma handle_balances env e w :
  vendor_balances (handle env e w) = vendor_balances w
  \/ exists v b a,
       vendor_balances w !! v = Some b
       /\ (is_task_run e = false -> a <= available_balance b)
       /\ vendor_balances (handle env e w)
          = <[v := paid_out a b]> (vendor_balances w).
Proof.
  destruct e as [request | retries payout_id | | | webhook_data]; simpl.
  - destruct (PayoutViewSet_create env request w) as [r w'] eqn:Hcreate.
    left. apply (create_balances _ _ _ _ _ Hcreate).
  - destruct (process_payout_balances env retries payout_id w)
      as [Heq | (p & b & _ & Hb & Heq)]; [now left | right].
    exists (vendor p), b, (amount p). split; [exact Hb |].
    split; [discriminate | exact Heq].
  - left. rewrite retry_failed_payouts_loop. apply retry_loop_balances.
  - left. apply process_scheduled_payouts_balances.
  - left. now rewrite webhook_handler_world.
Qed.

(** X11. Whatever runs against the tables, in whatever order, money is
    only moved: for every vendor the balance row is there afterwards if
    and only if it was there before, and it differs from the row before in
    one amount that was taken from the available balance and added to the
    total paid out.  So the two always add up to what they added up to,
    and the pending balance, the balance on hold and the total earnings
    are never written. *)
Theorem X11_every_history_only_moves_money events w :
  forall v, exists a,
    vendor_balances (history events w) !! v
    = paid_out a <$> vendor_balances w !! v.
Proof.
  change (balances_moved w (history events w)).
  revert w. induction events as [| [env e] events IH]; intros w.
  { now apply balances_moved_eq. }
  simpl. eapply balances_moved_trans; [| apply IH].
  destruct (handle_balances env e w) as [Heq | (v & b & a & Hb & _ & Heq)].
  - now apply balances_moved_eq.
  - eapply balances_moved_insert; eauto.
Qed.

(** X12. As long as no run of the [process_payout] task is among them,
    the entry points never overdraw: starting from available balances that
    are not negative, every available balance is not negative
    afterwards.  The create request, the sweep, the retry sweep and the
    webhook write no balance. *)
Theorem X12_only_the_task_can_overdraw events w :
  (forall e, e ∈ events -> is_task_run e.2 = false) ->
  balances_nonnegative w ->
  balances_nonnegative (history events w).
Proof.
  revert w. induction events as [| [env e] events IH]; intros w Hnone Hinv;
    [exact Hinv |].
  simpl. apply IH; [intros e' He'; apply Hnone; now right |].
  assert (is_task_run e = false) as He by (apply (Hnone (env, e)); left).
  destruct (handle_balances env e w) as [Heq | (v & b & a & Hb & Ha & Heq)];
    intros v' b'; rewrite Heq; [apply Hinv |].
  destruct (decide (v' = v)) as [-> | Hne].
  - rewrite lookup_insert_eq. intros [= <-]. simpl. specialize (Ha He). lia.
  - rewrite lookup_insert_ne by congruence. apply Hinv.
Qed.

(** The vendor asks for 60.00 and, when the sweep and the retry sweep have
    run, for 60.00 again. *)
Lemma X12_witness :
  balances_nonnegative
    (history [(Scenario.env, Create (Scenario.request 6000));
              (Scenario.env, ProcessScheduledPayouts);
              (Scenario.env, RetryFailedPayouts);
              (Scenario.env, Create (Scenario.request 6000))]
       (Scenario.world_due ScheduleType.WEEKLY)).
Proof.
  apply X12_only_the_task_can_overdraw.
  - intros e He. repeat (apply elem_of_cons in He as [-> | He]; [reflexivity |]).
    inversion He.
  - intros v b Hb. simpl in Hb.
    apply lookup_singleton_Some in Hb as [_ <-]. simpl. lia.
Defined.

(** ** The task on a vendor without a balance row *)



(** ** The sweep, run again *)

Lemma advanced_not_due env s : is_due env (advanced env s) = false.
Proof.
  unfold is_due, advanced, next_date. simpl.
  destruct (schedule_type s); simpl;
    rewrite ?andb_false_r; try reflexivity;
    apply andb_false_intro2, Z.leb_gt; lia.
Qed.

(** A schedule that is not due is not written. *)
Lemma sweep_other_schedule env w k :
  (forall s, payout_schedules w !! k = Some s -> is_due env s = false) ->
  payout_schedules (process_scheduled_payouts env w).2 !! k
  = payout_schedules w !! k.
Proof.
  intros Hnot. rewrite process_scheduled_payouts_rows.
  apply (sweep_rows_tables env (due_schedules env w) 0 w).
  intros Hin. destruct (due_schedules_key _ _ _ Hin) as (s & Hs & Hdue).
  rewrite (Hnot s Hs) in Hdue. discriminate.
Qed.

(** X14. A second sweep at the same time changes no table.  The
    schedules the first sweep advanced are not due any more; a due schedule
    it left as it was is visited again and left again; and no sweep creates
    a payout, sends a task or writes a balance or an account. *)
Theorem X14_second_sweep_changes_nothing env w :
  let w1 := (process_scheduled_payouts env w).2 in
  let w2 := (process_scheduled_payouts env w1).2 in
  payout_schedules w2 = payout_schedules w1
  /\ payouts w2 = payouts w1
  /\ vendor_balances w2 = vendor_balances w1
  /\ payout_accounts w2 = payout_accounts w1
  /\ queue w2 = queue w1.
Proof.
  intros w1 w2.
  assert (vendor_balances w1 = vendor_balances w) as Hb1
    by apply process_scheduled_payouts_balances.
  assert (forall k s1 b, payout_schedules w1 !! k = Some s1 ->
            is_due env s1 = true ->
            vendor_balances w !! ps_vendor s1 = Some b ->
            minimum_payout_amount s1 <= available_balance b) as Henough.
  { intros k s1 b Hs1 Hdue1 Hb.
    destruct (payout_schedules w !! k) as [s |] eqn:Hs.
    - destruct (is_due env s) eqn:Hdue.
      + unfold w1 in Hs1. rewrite (sweep_due_schedule env w k s Hs Hdue) in Hs1.
        injection Hs1 as Hs1.
        destruct (vendor_balances w !! ps_vendor s) as [b0 |] eqn:Hb0.
        * destruct (Z.leb_spec (minimum_payout_amount s) (available_balance b0)).
          -- subst s1. congruence.
          -- subst s1. rewrite advanced_not_due in Hdue1. discriminate.
        * subst s1. congruence.
      + unfold w1 in Hs1. rewrite sweep_other_schedule in Hs1; [congruence |].
        intros s' Hs'. congruence.
    - unfold w1 in Hs1. rewrite sweep_other_schedule in Hs1; [congruence |].
      intros s' Hs'. congruence. }
  split.
  - apply map_eq. intros k. unfold w2.
    destruct (payout_schedules w1 !! k) as [s1 |] eqn:Hs1.
    + destruct (is_due env s1) eqn:Hdue1.
      * rewrite (sweep_due_schedule env w1 k s1 Hs1 Hdue1), Hb1.
        destruct (vendor_balances w !! ps_vendor s1) as [b |] eqn:Hb;
          [| reflexivity].
        pose proof (Henough k s1 b Hs1 Hdue1 Hb).
        destruct (Z.leb_spec (minimum_payout_amount s1) (available_balance b));
          [reflexivity | lia].
      * rewrite sweep_other_schedule; [exact Hs1 |].
        intros s' Hs'. congruence.
    + rewrite sweep_other_schedule; [exact Hs1 |].
      intros s' Hs'. congruence.
  - unfold w2. rewrite process_scheduled_payouts_rows.
    destruct (sweep_rows_tables env (due_schedules env w1) 0 w1)
      as (_ & Hp & Hb & Ha & Hq & _).
    auto.
Qed.

(** ** Payout accounts *)

Lemma demote_primary_lookup vendor (t : gmap nat PayoutAccount) j :
  demote_primary vendor t !! j
  = (fun a => if decide (pa_vendor a = vendor /\ is_primary a = true)
              then set_is_primary false a else a) <$> t !! j.
Proof. apply lookup_fmap. Qed.

(** A row of the table after the [update]: not primary when it is of the
    vendor, the row as it was when it is of another vendor. *)
Lemma demote_primary_row vendor (t : gmap nat PayoutAccount) j a' :
  demote_primary vendor t !! j = Some a' ->
  exists a, t !! j = Some a /\ pa_vendor a' = pa_vendor a
    /\ (pa_vendor a = vendor -> is_primary a' = false)
    /\ (pa_vendor a <> vendor -> a' = a).
Proof.
  rewrite demote_primary_lookup.
  destruct (t !! j) as [a |]; [| discriminate]. simpl. intros [= <-].
  exists a. split; [reflexivity |].
  destruct (decide (pa_vendor a = vendor /\ is_primary a = true)) as [[Hv Hp] | Hnot].
  - split; [reflexivity |]. split; [reflexivity | contradiction].
  - split; [reflexivity |]. split; [| reflexivity].
    intros Hv. destruct (is_primary a); [exfalso; auto | reflexivity].
Qed.

(** What [save] leaves: the instance under its key and the other rows as
    the [update] left them. *)
Lemma PayoutAccount_save_table env pk self w :
  exists i self',
    PayoutAccount_save env pk self w
    = (Ok i,
       set_payout_accounts
         (<[i := self']> (if is_primary self
                          then demote_primary (pa_vendor self) (payout_accounts w)
                          else payout_accounts w)) w)
    /\ pa_vendor self' = pa_vendor self
    /\ is_primary self' = is_primary self
    /\ verification_status self' = verification_status self
    /\ account_type self' = account_type self
    /\ match pk with
       | Some k => i = k /\ self' = self
       | None => payout_accounts w !! i = None
       end.
Proof.
  unfold PayoutAccount_save. destruct pk as [k |].
  - exists k, self. repeat split.
  - eexists _, _. split; [reflexivity |]. repeat split.
    set (t := if is_primary self then _ else _).
    pose proof (fresh_key_unused t) as Hfresh. subst t.
    destruct (is_primary self); [| exact Hfresh].
    rewrite demote_primary_lookup in Hfresh.
    now destruct (payout_accounts w !! _).
Qed.

(** X15. [PayoutAccount.save] keeps the rule it is there for: when no
    vendor has two accounts marked primary, none has after a [save],
    whatever instance is saved, new or stored, primary or not. *)
Theorem X15_account_save_keeps_one_primary env pk self w :
  one_primary (payout_accounts w) ->
  one_primary (payout_accounts (PayoutAccount_save env pk self w).2).
Proof.
  intros Hone.
  destruct (PayoutAccount_save_table env pk self w)
    as (k & self' & -> & Hv & Hp & _). simpl.
  assert (forall j a, j <> k ->
            <[k := self']> (if is_primary self
                            then demote_primary (pa_vendor self) (payout_accounts w)
                            else payout_accounts w) !! j = Some a ->
            is_primary a = true ->
            payout_accounts w !! j = Some a
            /\ (is_primary self = true -> pa_vendor a <> pa_vendor self)) as Hrow.
  { intros j a Hj Ha Hpa. rewrite lookup_insert_ne in Ha by congruence.
    destruct (is_primary self); [| split; [exact Ha | discriminate]].
    destruct (demote_primary_row _ _ _ _ Ha) as (a0 & Ha0 & _ & Hsame & Hother).
    destruct (decide (pa_vendor a0 = pa_vendor self)) as [Heq | Hne].
    - rewrite (Hsame Heq) in Hpa. discriminate.
    - rewrite (Hother Hne). split; [exact Ha0 |]. now intros _. }
  intros i j a b Ha Hb Hvab Hpa Hpb.
  destruct (decide (i = k)) as [-> | Hi]; destruct (decide (j = k)) as [-> | Hj];
    try reflexivity.
  - rewrite lookup_insert_eq in Ha. injection Ha as <-.
    destruct (Hrow j b Hj Hb Hpb) as [_ Hne]. exfalso. apply Hne; congruence.
  - rewrite lookup_insert_eq in Hb. injection Hb as <-.
    destruct (Hrow i a Hi Ha Hpa) as [_ Hne]. exfalso. apply Hne; congruence.
  - destruct (Hrow i a Hi Ha Hpa) as [Ha0 _].
    destruct (Hrow j b Hj Hb Hpb) as [Hb0 _]. eauto.
Qed.

(** Vendor 1 has the primary account 7 and saves a new primary account. *)
Lemma X15_witness :
  one_primary
    (payout_accounts
       (PayoutAccount_save Scenario.env None
          (Scenario.account AccountType.PAYPAL)
          (Scenario.world AccountType.STRIPE)).2).
Proof.
  apply X15_account_save_keeps_one_primary.
  intros i j a b Ha Hb _ _ _. simpl in Ha, Hb.
  apply lookup_singleton_Some in Ha as [<- _].
  apply lookup_singleton_Some in Hb as [<- _]. reflexivity.
Defined.

Lemma list_singleton {A} (l : list A) x :
  NoDup l -> x ∈ l -> (forall y, y ∈ l -> y = x) -> l = [x].
Proof.
  intros Hnd Hx Hall. destruct l as [| y l]; [inversion Hx |].
  assert (y = x) as -> by (apply Hall; left).
  destruct l as [| z l]; [reflexivity | exfalso].
  assert (z = x) as -> by (apply Hall; right; left).
  apply NoDup_cons in Hnd as [Hnot _]. apply Hnot. left.
Qed.

(** X16. The account that is saved as primary is from then on the
    primary account of its vendor, the one the sweep pays to; every other
    account of the vendor is stored as not primary, and the accounts of
    other vendors are as they were. *)
Theorem X16_saved_primary_is_the_primary env pk self w :
  is_primary self = true ->
  exists i w',
    PayoutAccount_save env pk self w = (Ok i, w')
    /\ primary_account (pa_vendor self) w' = Some i
    /\ (forall j a, payout_accounts w' !! j = Some a -> j <> i ->
          pa_vendor a = pa_vendor self -> is_primary a = false)
    /\ (forall j a, payout_accounts w !! j = Some a -> j <> i ->
          pa_vendor a <> pa_vendor self -> payout_accounts w' !! j = Some a).
Proof.
  intros Hprimary.
  destruct (PayoutAccount_save_table env pk self w)
    as (i & self' & Hsave & Hv & Hp & _).
  rewrite Hprimary in Hsave, Hp.
  eexists i, _. split; [exact Hsave |]. simpl.
  set (t' := <[i := self']> (demote_primary (pa_vendor self) (payout_accounts w))).
  assert (forall j a, t' !! j = Some a -> j <> i ->
            pa_vendor a = pa_vendor self -> is_primary a = false) as Hothers.
  { intros j a Ha Hj Hva. unfold t' in Ha.
    rewrite lookup_insert_ne in Ha by congruence.
    destruct (demote_primary_row _ _ _ _ Ha) as (a0 & _ & Hv0 & Hsame & _).
    apply Hsame. congruence. }
  split; [| split; [exact Hothers |]].
  - unfold primary_account. simpl. fold t'.
    rewrite (list_singleton
               (filter (fun e : nat * PayoutAccount =>
                          pa_vendor e.2 = pa_vendor self /\ is_primary e.2 = true)
                  (map_to_list t')) (i, self')); [reflexivity | | |].
    + apply NoDup_filter, NoDup_map_to_list.
    + apply list_elem_of_filter. split; [auto |].
      apply elem_of_map_to_list, lookup_insert_eq.
    + intros [j a] Hin. apply list_elem_of_filter in Hin as [[Hva Hpa] Hin].
      apply elem_of_map_to_list in Hin. simpl in Hva, Hpa.
      destruct (decide (j = i)) as [-> | Hj].
      * unfold t' in Hin. rewrite lookup_insert_eq in Hin. congruence.
      * rewrite (Hothers j a Hin Hj Hva) in Hpa. discriminate.
  - intros j a Ha Hj Hva. unfold t'. rewrite lookup_insert_ne by congruence.
    rewrite demote_primary_lookup, Ha. simpl.
    rewrite decide_False; [reflexivity |]. intros [Heq _]. contradiction.
Qed.

(** Vendor 1 has the primary account 7 and saves a new primary account:
    the new account is the one the sweep pays to, account 7 is primary no
    more. *)
Lemma X16_witness :
  exists i w',
    PayoutAccount_save Scenario.env None (Scenario.account AccountType.PAYPAL)
      (Scenario.world AccountType.STRIPE) = (Ok i, w')
    /\ primary_account 1 w' = Some i
    /\ i <> 7%nat
    /\ is_primary <$> payout_accounts w' !! 7%nat = Some false.
Proof.
  destruct (X16_saved_primary_is_the_primary Scenario.env None
              (Scenario.account AccountType.PAYPAL)
              (Scenario.world AccountType.STRIPE) eq_refl)
    as (i & w' & Hsave & Hprimary & _ & _).
  exists i, w'. split; [exact Hsave |]. split; [exact Hprimary |].
  injection Hsave as <- <-. split; [vm_compute; discriminate |].
  vm_compute. reflexivity.
Defined.

(** ** The verification of an account *)

Lemma contains_app c s1 s2 :
  contains c (s1 +:+ s2) = contains c s1 || contains c s2.
Proof.
  induction s1 as [| x s1 IH]; simpl; [reflexivity |].
  now rewrite IH, orb_assoc.
Qed.

(** [after_last] is what follows the last occurrence. *)
Lemma after_last_split c s :
  contains c s = true ->
  exists before, s = before +:+ String c (after_last c s)
    /\ contains c (after_last c s) = false.
Proof.
  induction s as [| x s IH]; simpl; [discriminate |].
  destruct (contains c s) eqn:Hs.
  - intros _. destruct (IH eq_refl) as (before & Heq & Hnone).
    exists (String x before). split; [| exact Hnone].
    change (String x s = String x (before +:+ String c (after_last c s))).
    f_equal. exact Heq.
  - rewrite orb_false_r. intros Hx. rewrite Hx.
    apply Ascii.eqb_eq in Hx as ->. exists "". split; [reflexivity | exact Hs].
Qed.

Lemma after_last_app c before rest :
  contains c rest = false ->
  after_last c (before +:+ String c rest) = rest.
Proof.
  intros Hrest. induction before as [| x before IH]; simpl.
  - now rewrite Hrest, Ascii.eqb_refl.
  - rewrite contains_app. simpl. rewrite Ascii.eqb_refl, orb_true_r. exact IH.
Qed.

(** The check on the address, in words: something, an at sign, and a
    domain with a dot and without an at sign.  Nothing is asked of what
    comes before the at sign. *)
Lemma paypal_email_accepted_form e :
  paypal_email_accepted e = true
  <-> exists local domain,
        e = Some (local +:+ String "@" domain)
        /\ contains "@" domain = false /\ contains "." domain = true.
Proof.
  split.
  - destruct e as [address |]; [| discriminate]. simpl.
    intros H. apply andb_prop in H as [H Hdot]. apply andb_prop in H as [_ Hat].
    destruct (after_last_split _ _ Hat) as (before & Heq & Hnone).
    exists before, (after_last "@" address). rewrite <- Heq. auto.
  - intros (local & domain & -> & Hnone & Hdot). simpl.
    rewrite (after_last_app _ _ _ Hnone), Hdot, contains_app. simpl.
    rewrite orb_true_r, !andb_true_r.
    apply negb_true_iff, bool_decide_eq_false.
    now destruct local.
Qed.

Lemma PayPalProcessor_verify_account_cases env pk a w :
  PayPalProcessor_verify_account env pk a w
  = if paypal_email_accepted (email a)
    then (Ok (a, Verified), (PayoutAccount_save env (Some pk) a w).2)
    else (Raise (PayoutError
                   (if falsy (email a) then "PayPal account email is required"
                    else "Invalid email format")), w).
Proof.
  unfold PayPalProcessor_verify_account, paypal_email_accepted, falsy.
  destruct (email a) as [address |]; [| reflexivity].
  destruct address as [| x address]; [reflexivity |].
  rewrite bool_decide_eq_false_2 by discriminate.
  change (negb false) with true. rewrite !andb_true_l.
  destruct (contains "@" (String x address)); [| reflexivity].
  destruct (contains "." (after_last "@" (String x address))); reflexivity.
Qed.

(** X17. The endpoint verifies PayPal accounts only, and on the form of
    the address alone: a request to verify an account succeeds if and only
    if the account is a PayPal account whose e-mail address is something,
    an at sign, and a domain with a dot and without an at sign.  The row
    is then stored as [VERIFIED].  This holds whatever Stripe would have
    answered for a bank account: that branch of the Stripe processor is
    never reached. *)
Theorem X17_only_paypal_accounts_are_verified env connect pk a w :
  let r := PayoutAccountViewSet_verify env connect pk a w in
  ((exists a', r.1 = Ok a')
   <-> account_type a = AccountType.PAYPAL
       /\ exists local domain,
            email a = Some (local +:+ String "@" domain)
            /\ contains "@" domain = false /\ contains "." domain = true)
  /\ forall a', r.1 = Ok a' ->
       payout_accounts r.2 !! pk = Some a'
       /\ verification_status a' = VerificationStatus.VERIFIED
       /\ a' = set_verification_status VerificationStatus.VERIFIED a.
Proof.
  intros r. subst r. rewrite <- paypal_email_accepted_form.
  unfold PayoutAccountViewSet_verify, PayoutAccountViewSet_get_processor.
  unfold_monad.
  destruct (account_type a) eqn:Htype; simpl.
  - split; [split; [intros [a' [=]] | intros [[=] _]] | intros a' [=]].
  - rewrite PayPalProcessor_verify_account_cases.
    destruct (paypal_email_accepted (email a)); simpl.
    + split; [split; [auto | eauto] |].
      intros a' [= <-]. split; [apply lookup_insert_eq | auto].
    + split; [split; [intros [a' [=]] | intros [_ [=]]] | intros a' [=]].
  - unfold StripeProcessor_verify_account. rewrite Htype. simpl.
    split; [split; [intros [a' [=]] | intros [[=] _]] | intros a' [=]].
  - split; [split; [intros [a' [=]] | intros [[=] _]] | intros a' [=]].
Qed.

(** X18. A Stripe account cannot be verified: the request is always
    answered with the error 400 [Account verification failed: Unsupported
    account type for Stripe], and the account is stored as [FAILED], also
    when it was [VERIFIED] before. *)
Theorem X18_stripe_account_verification_fails env connect pk a w :
  account_type a = AccountType.STRIPE ->
  exists w',
    PayoutAccountViewSet_verify env connect pk a w
    = (Raise (CustomException
                "Account verification failed: Unsupported account type for Stripe"
                400), w')
    /\ payout_accounts w' !! pk
       = Some (set_verification_status VerificationStatus.FAILED a)
    /\ payouts w' = payouts w /\ vendor_balances w' = vendor_balances w.
Proof.
  intros Htype.
  unfold PayoutAccountViewSet_verify, PayoutAccountViewSet_get_processor.
  unfold_monad. rewrite Htype. simpl.
  unfold StripeProcessor_verify_account. rewrite Htype. simpl.
  eexists. split; [reflexivity |]. simpl.
  split; [apply lookup_insert_eq | auto].
Qed.

(** A verified Stripe account loses its verification. *)
Lemma X18_witness :
  exists w',
    PayoutAccountViewSet_verify Scenario.env
      (fun _ payout_account => ret (payout_account, Verified))
      7 (Scenario.account AccountType.STRIPE) (Scenario.world AccountType.STRIPE)
    = (Raise (CustomException
                "Account verification failed: Unsupported account type for Stripe"
                400), w')
    /\ verification_status <$> payout_accounts w' !! 7%nat
       = Some VerificationStatus.FAILED.
Proof.
  destruct (X18_stripe_account_verification_fails Scenario.env
              (fun _ payout_account => ret (payout_account, Verified))
              7 (Scenario.account AccountType.STRIPE)
              (Scenario.world AccountType.STRIPE) eq_refl)
    as (w' & Hrun & Hrow & _).
  exists w'. split; [exact Hrun |]. now rewrite Hrow.
Defined.

(** X19. [FAILED] is recorded for Stripe accounts only.  A request to
    verify an account of another type that does not succeed writes
    nothing: for a bank account and for cash the answer is the error 400
    [Unsupported account type.], for a PayPal account a [PayoutError], and
    the verification status stays what it was. *)
Theorem X19_failed_verification_writes_nothing env connect pk a w e w' :
  account_type a <> AccountType.STRIPE ->
  PayoutAccountViewSet_verify env connect pk a w = (Raise e, w') ->
  w' = w
  /\ (custom_exception_handler e).2 = 400
  /\ (account_type a <> AccountType.PAYPAL ->
      e = CustomException "Unsupported account type." 400).
Proof.
  intros Htype.
  unfold PayoutAccountViewSet_verify, PayoutAccountViewSet_get_processor.
  unfold_monad.
  destruct (account_type a) eqn:Ha; simpl; try contradiction.
  - intros [= <- <-]. auto.
  - rewrite PayPalProcessor_verify_account_cases.
    destruct (paypal_email_accepted (email a)); simpl; [discriminate |].
    intros [= <- <-]. split; [reflexivity |]. split; [reflexivity |].
    intros Hne. contradiction.
  - intros [= <- <-]. auto.
Qed.

(** A PayPal account whose address has no dot after the at sign. *)
Lemma X19_witness :
  let a := mkPayoutAccount 1 AccountType.PAYPAL true VerificationStatus.VERIFIED
             (Some "vendor.name@example") None 5 in
  let w := Scenario.world AccountType.PAYPAL in
  exists e,
    PayoutAccountViewSet_verify Scenario.env
      (fun _ payout_account => ret (payout_account, Verified)) 7 a w
    = (Raise e, w)
    /\ (custom_exception_handler e).2 = 400.
Proof.
  intros a w.
  pose (r := PayoutAccountViewSet_verify Scenario.env
               (fun _ payout_account => ret (payout_account, Verified)) 7 a w).
  assert (r = (Raise (PayoutError "Invalid email format"), r.2)) as Hr
    by (vm_compute; reflexivity).
  assert (account_type a <> AccountType.STRIPE) as Htype by discriminate.
  destruct (X19_failed_verification_writes_nothing Scenario.env
              (fun _ payout_account => ret (payout_account, Verified)) 7 a w
              (PayoutError "Invalid email format") r.2 Htype Hr)
    as (Hw & Hcode & _).
  exists (PayoutError "Invalid email format"). fold r. rewrite Hr, Hw. auto.
Defined.

(** ** The totals of the summary *)

Lemma payouts_total_counted v statuses w :
  payouts_total v statuses w
  = foldr (fun e total => counted v statuses e.2 + total) 0
      (map_to_list (payouts w)).
Proof.
  unfold payouts_total.
  transitivity (foldr (fun (e : nat * Payout) total => amount e.2 + total) 0
                  (filter (fun e => vendor e.2 = v /\ status e.2 ∈ statuses)
                     (map_to_list (payouts w)))).
  { now destruct (filter _ _). }
  induction (map_to_list (payouts w)) as [| e l IH]; [reflexivity |].
  rewrite filter_cons. simpl. unfold counted at 1.
  destruct (decide (vendor e.2 = v /\ status e.2 ∈ statuses)); simpl;
    now rewrite IH.
Qed.

Lemma counted_sum_perm v statuses (l l' : list (nat * Payout)) :
  l ≡ₚ l' ->
  foldr (fun e total => counted v statuses e.2 + total) 0 l
  = foldr (fun e total => counted v statuses e.2 + total) 0 l'.
Proof.
  induction 1 as [| x l l' _ IH | x y l | l1 l2 l3 _ IH1 _ IH2]; simpl;
    [reflexivity | now rewrite IH | lia | congruence].
Qed.

(** A total after one row was written. *)
Lemma payouts_total_insert v statuses w w' i p' :
  payouts w' = <[i := p']> (payouts w) ->
  payouts_total v statuses w'
  = payouts_total v statuses w
    - from_option (counted v statuses) 0 (payouts w !! i)
    + counted v statuses p'.
Proof.
  intros Htable. rewrite !payouts_total_counted, Htable.
  destruct (payouts w !! i) as [p |] eqn:Hp; simpl.
  - rewrite <- (insert_delete_eq (payouts w)).
    rewrite (counted_sum_perm _ _ _ _
               (map_to_list_insert (delete i (payouts w)) i p'
                  (lookup_delete_eq _ _))).
    rewrite <- (counted_sum_perm _ _ _ _ (map_to_list_delete _ _ _ Hp)).
    simpl. lia.
  - rewrite (counted_sum_perm _ _ _ _ (map_to_list_insert _ i p' Hp)).
    simpl. lia.
Qed.

(** A run of the task that is [Done] has completed the payout it was
    given. *)
Lemma process_payout_Done_row env retries payout_id w p w' :
  payouts w !! payout_id = Some p ->
  process_payout env retries payout_id w = (Done, w') ->
  exists p',
    payouts w' = <[payout_id := p']> (payouts w)
    /\ status p' = PayoutStatus.COMPLETED
    /\ amount p' = amount p /\ vendor p' = vendor p.
Proof.
  intros Hp. unfold process_payout, Payout_objects_get. rewrite Hp. simpl.
  assert (forall e w0 w1,
            process_payout_failed env retries payout_id e w0 <> (Done, w1))
    as Hfailed.
  { intros e w0 w1. unfold process_payout_failed, self_retry.
    destruct (Payout_objects_get payout_id w0) as [q |];
      [| destruct (retries <? 3)%nat; discriminate].
    unfold_monad.
    destruct (Payout_save env _ w0) as [[q1 | e'] w2]; simpl;
      [destruct (retries <? 3)%nat |]; discriminate. }
  unfold_monad.
  destruct (Payout_save env _ w) as [[p1 | e] w1] eqn:Hsave;
    [| intros Hrun; now apply Hfailed in Hrun].
  destruct (Payout_save_Ok _ _ _ _ _ Hsave) as [i H].
  pose proof (saved_key _ _ _ _ _ _ H) as Hkey. simpl in Hkey. subst i.
  unfold vendor_balance, VendorBalance_save.
  destruct (vendor_balances w1 !! vendor p1) as [b |];
    [| intros Hrun; now apply Hfailed in Hrun].
  destruct (VendorBalance_fits _); simpl;
    [| intros Hrun; now apply Hfailed in Hrun].
  intros [= <-]. exists p1. simpl.
  split; [apply (saved_payouts _ _ _ _ _ _ H) |].
  split; [apply (saved_status _ _ _ _ _ _ H) |].
  split; [apply (saved_amount _ _ _ _ _ _ H) | apply (saved_vendor _ _ _ _ _ _ H)].
Qed.

(** X21. The summary follows the task: when a run of [process_payout]
    on a stored payout is [Done], the completed total of the vendor is
    higher by the amount of the payout unless the payout was completed
    already, and the pending total is lower by the amount if the payout was
    pending or processing. *)
Theorem X21_summary_after_task env retries payout_id w p w' :
  payouts w !! payout_id = Some p ->
  process_payout env retries payout_id w = (Done, w') ->
  summary_total_payouts (vendor p) w'
  = summary_total_payouts (vendor p) w
    + (if decide (status p = PayoutStatus.COMPLETED) then 0 else amount p)
  /\ summary_pending_payouts (vendor p) w'
     = summary_pending_payouts (vendor p) w
       - (if decide (status p = PayoutStatus.PENDING
                     \/ status p = PayoutStatus.PROCESSING)
          then amount p else 0).
Proof.
  intros Hp Hrun.
  destruct (process_payout_Done_row _ _ _ _ _ _ Hp Hrun)
    as (p' & Htable & Hst & Ha & Hv).
  unfold summary_pending_payouts, summary_total_payouts.
  rewrite !(payouts_total_insert _ _ _ _ _ _ Htable), Hp. simpl.
  unfold counted. rewrite Hv, Hst, Ha. split.
  - rewrite (decide_True (P := _ /\ PayoutStatus.COMPLETED ∈ _));
      [| split; [reflexivity | left]].
    destruct (decide (status p = PayoutStatus.COMPLETED)) as [-> | Hne].
    + rewrite decide_True; [lia | split; [reflexivity | left]].
    + rewrite decide_False; [lia |]. intros [_ Hin].
      apply list_elem_of_singleton in Hin. contradiction.
  - rewrite (decide_False (P := _ /\ PayoutStatus.COMPLETED ∈ _)).
    2:{ intros [_ Hin]. apply elem_of_cons in Hin as [| Hin]; [discriminate |].
        apply list_elem_of_singleton in Hin. discriminate. }
    destruct (decide (status p = PayoutStatus.PENDING
                      \/ status p = PayoutStatus.PROCESSING)) as [Hor | Hnot].
    + rewrite decide_True; [lia |]. split; [reflexivity |].
      destruct Hor as [-> | ->]; [left | right; left].
    + rewrite decide_False; [lia |]. intros [_ Hin]. apply Hnot.
      apply elem_of_cons in Hin as [| Hin]; [now left |].
      apply list_elem_of_singleton in Hin. now right.
Qed.

(** Payout 0, of 60.00 and processing, is completed by the task. *)
Lemma X21_witness :
  exists w',
    process_payout Scenario.env 0 0
      (Scenario.world_with_payout PayoutStatus.PROCESSING) = (Done, w')
    /\ summary_total_payouts 1 w'
       = summary_total_payouts 1
           (Scenario.world_with_payout PayoutStatus.PROCESSING) + 6000
    /\ summary_pending_payouts 1 w'
       = summary_pending_payouts 1
           (Scenario.world_with_payout PayoutStatus.PROCESSING) - 6000.
Proof.
  pose (r := process_payout Scenario.env 0 0
               (Scenario.world_with_payout PayoutStatus.PROCESSING)).
  assert (r = (Done, r.2)) as Hr by (vm_compute; reflexivity).
  exists r.2. split; [exact Hr |].
  apply (X21_summary_after_task Scenario.env 0 0
           (Scenario.world_with_payout PayoutStatus.PROCESSING)
           (Scenario.payout PayoutStatus.PROCESSING) r.2 eq_refl Hr).
Defined.
